(** * PrecisionFighterGame: a shallow embedding of [src/main.js]

    The game is a single JavaScript file: a [Sprite] class (physics, attack
    window, damage), a collision test, the enemy AI, the countdown timer and
    the per-frame [animate] loop, all acting on global mutable state and on
    two browser facilities, [setTimeout]/[clearTimeout] and the DOM.

    Modelling choices.
    - JavaScript numbers.  The game state and its executions are modelled
      with exact rationals [Q].  The functions that add numbers and compare
      the sums ([update()] and [rectangularCollision]) are embedded a second
      time over IEEE binary64, in the module [Ieee]: the properties of one
      call of these on an arbitrary sprite, where the rounding of a sum can
      decide a comparison, are stated there.  The integer-valued fields
      [timer] and [direction] are [Z].
    - The globals are one record [Game.t], threaded explicitly through every
      function.  The timer queue of the host ([setTimeout], [clearTimeout])
      is part of it, with a logical clock in milliseconds.
    - [draw()] and the canvas calls only paint; they read the state and are
      left out.  The DOM nodes written by the game are kept, and every
      assignment to [resultDisplay.innerHTML] is logged.
    - [Math.random()] is an input of the frame that calls it. *)

From Stdlib Require Import QArith Qabs Lqa ZArith Lia List String Bool.
From Stdlib Require Import Floats.
Import ListNotations.

Open Scope Q_scope.

(** ** JavaScript comparisons on numbers *)

Declare Scope js_scope.
Delimit Scope js_scope with js.

Definition js_le (a b : Q) : bool := Qle_bool a b.
Definition js_ge (a b : Q) : bool := Qle_bool b a.
Definition js_lt (a b : Q) : bool := negb (Qle_bool b a).
Definition js_gt (a b : Q) : bool := negb (Qle_bool a b).
Definition js_eq (a b : Q) : bool := Qeq_bool a b.

Notation "a <=? b" := (js_le a b) (at level 70) : js_scope.
Notation "a >=? b" := (js_ge a b) (at level 70) : js_scope.
Notation "a <? b" := (js_lt a b) (at level 70) : js_scope.
Notation "a >? b" := (js_gt a b) (at level 70) : js_scope.
Notation "a ===? b" := (js_eq a b) (at level 70) : js_scope.

Open Scope js_scope.

(** ** Game constants (lines 10-18) *)

Definition GRAVITY : Q := 0.7.
Definition TERMINAL_VELOCITY : Q := 15.
Definition GAME_WIDTH : Q := 1024.
Definition GAME_HEIGHT : Q := 576.
Definition GROUND_HEIGHT : Q := 96.

(** [canvas.width] and [canvas.height] are set once, at lines 17-18. *)
Definition canvas_width : Q := GAME_WIDTH.
Definition canvas_height : Q := GAME_HEIGHT.

(** ** Data *)

Module Vec.
Record t : Set := mk { x : Q; y : Q }.
End Vec.

Module AttackBox.
Record t : Set := mk {
  position : Vec.t;
  offset : Vec.t;
  width : Q;
  height : Q
}.

Definition set_position (p : Vec.t) (b : t) : t :=
  mk p (offset b) (width b) (height b).
End AttackBox.

(** [this] of a [Sprite] method: the two sprites of the game. *)
Inductive Who : Set := Player | Enemy.

Module Sprite.

Record t : Set := mk {
  position : Vec.t;
  velocity : Vec.t;
  width : Q;
  height : Q;
  lastKey : string;
  attackBox : AttackBox.t;
  color : string;
  isAttacking : bool;
  health : Q;
  isDead : bool;
  direction : Z;                (* 1 = right, -1 = left *)
  isJumping : option bool       (* [None]: the property is not yet set *)
}.

Definition set_position (p : Vec.t) (s : t) : t :=
  mk p (velocity s) (width s) (height s) (lastKey s) (attackBox s)
     (color s) (isAttacking s) (health s) (isDead s) (direction s)
     (isJumping s).

Definition set_velocity (v : Vec.t) (s : t) : t :=
  mk (position s) v (width s) (height s) (lastKey s) (attackBox s)
     (color s) (isAttacking s) (health s) (isDead s) (direction s)
     (isJumping s).

Definition set_lastKey (k : string) (s : t) : t :=
  mk (position s) (velocity s) (width s) (height s) k (attackBox s)
     (color s) (isAttacking s) (health s) (isDead s) (direction s)
     (isJumping s).

Definition set_attackBox (b : AttackBox.t) (s : t) : t :=
  mk (position s) (velocity s) (width s) (height s) (lastKey s) b
     (color s) (isAttacking s) (health s) (isDead s) (direction s)
     (isJumping s).

Definition set_isAttacking (b : bool) (s : t) : t :=
  mk (position s) (velocity s) (width s) (height s) (lastKey s)
     (attackBox s) (color s) b (health s) (isDead s) (direction s)
     (isJumping s).

Definition set_health (h : Q) (s : t) : t :=
  mk (position s) (velocity s) (width s) (height s) (lastKey s)
     (attackBox s) (color s) (isAttacking s) h (isDead s) (direction s)
     (isJumping s).

Definition set_isDead (b : bool) (s : t) : t :=
  mk (position s) (velocity s) (width s) (height s) (lastKey s)
     (attackBox s) (color s) (isAttacking s) (health s) b (direction s)
     (isJumping s).

Definition set_direction (d : Z) (s : t) : t :=
  mk (position s) (velocity s) (width s) (height s) (lastKey s)
     (attackBox s) (color s) (isAttacking s) (health s) (isDead s) d
     (isJumping s).

Definition set_isJumping (j : option bool) (s : t) : t :=
  mk (position s) (velocity s) (width s) (height s) (lastKey s)
     (attackBox s) (color s) (isAttacking s) (health s) (isDead s)
     (direction s) j.

(** The constructor (lines 35-57). *)
Definition new (position velocity : Vec.t) (color : string)
    (offset : Vec.t) : t :=
  mk position velocity 50 150 ""
     (AttackBox.mk (Vec.mk (Vec.x position) (Vec.y position)) offset 100 50)
     color false 100 false 1%Z None.

(** Lines 86-94: the attack box follows the character. *)
Definition alignAttackBox (s : t) : t :=
  let b := attackBox s in
  let bx :=
    if (direction s =? 1)%Z
    then Vec.x (position s) + Vec.x (AttackBox.offset b)
    else Vec.x (position s) - AttackBox.width b + width s
         - Vec.x (AttackBox.offset b) in
  let by_ := Vec.y (position s) + Vec.y (AttackBox.offset b) in
  set_attackBox (AttackBox.set_position (Vec.mk bx by_) b) s.

(** Lines 96-98: apply the velocity to the position. *)
Definition applyPosition (s : t) : t :=
  set_position
    (Vec.mk (Vec.x (position s) + Vec.x (velocity s))
            (Vec.y (position s) + Vec.y (velocity s))) s.

(** The test of line 101, on the exact sum; [Ieee.Sprite.reachesGround]
    is the test on the sum as double precision rounds it. *)
Definition reachesGround (s : t) : bool :=
  Vec.y (position s) + height s + Vec.y (velocity s)
    >=? canvas_height - GROUND_HEIGHT.

(** Lines 100-107: ground contact or gravity. *)
Definition applyGravity (s : t) : t :=
  if reachesGround s then
    let s1 := set_velocity (Vec.mk (Vec.x (velocity s)) 0) s in
    let s2 :=
      set_position
        (Vec.mk (Vec.x (position s1))
                (canvas_height - height s1 - GROUND_HEIGHT)) s1 in
    set_isJumping (Some false) s2
  else
    set_velocity
      (Vec.mk (Vec.x (velocity s)) (Vec.y (velocity s) + GRAVITY)) s.

(** Lines 109-111: screen boundaries, on the exact right edge;
    [Ieee.Sprite.screenBoundaries] tests the edge as double precision
    rounds it. *)
Definition screenBoundaries (s : t) : t :=
  let s1 :=
    if Vec.x (position s) <? 0
    then set_position (Vec.mk 0 (Vec.y (position s))) s
    else s in
  if Vec.x (position s1) + width s1 >? canvas_width
  then set_position
         (Vec.mk (canvas_width - width s1) (Vec.y (position s1))) s1
  else s1.

(** [update()] (lines 81-112); [this.draw()] only paints. *)
Definition update (s : t) : t :=
  if isDead s then s
  else screenBoundaries (applyGravity (applyPosition (alignAttackBox s))).

(** [takeHit(damage)] (lines 122-128). *)
Definition takeHit (damage : Q) (s : t) : t :=
  let s1 := set_health (health s - damage) s in
  if health s1 <=? 0
  then set_isDead true (set_health 0 s1)
  else s1.

(** The state part of [attack()] (line 115); its [setTimeout] is in
    [attack] below, on the game state that holds the timer queue. *)
Definition startAttack (s : t) : t := set_isAttacking true s.

(** The callback of line 118. *)
Definition resetAttack (s : t) : t := set_isAttacking false s.

End Sprite.

(** ** The host: timer queue and DOM *)

(** The functions handed to [setTimeout]: [decreaseTimer] (line 188) and
    the arrow function of [attack()] (line 117), which closes over [this]. *)
Inductive Callback : Set :=
| CbDecreaseTimer
| CbResetAttack (this : Who).

Module Timer.
Record t : Set := mk {
  id : nat;          (* the value returned by [setTimeout] *)
  due : N;           (* clock value, in ms, from which it may fire *)
  callback : Callback
}.
End Timer.

Module Keys.
(** The [pressed] flags of the [keys] object (lines 150-157). *)
Record t : Set := mk {
  a : bool;
  d : bool;
  w : bool;
  ArrowRight : bool;
  ArrowLeft : bool;
  ArrowUp : bool
}.

Definition set_a (b : bool) (k : t) : t :=
  mk b (d k) (w k) (ArrowRight k) (ArrowLeft k) (ArrowUp k).
Definition set_d (b : bool) (k : t) : t :=
  mk (a k) b (w k) (ArrowRight k) (ArrowLeft k) (ArrowUp k).
End Keys.

Module Dom.
(** What the game writes to the page.  [resultWrites] lists every value
    assigned to [resultDisplay.innerHTML], the latest first. *)
Record t : Set := mk {
  playerHealthBar : option Q;      (* [style.width], in percent *)
  enemyHealthBar : option Q;
  timerDisplay : option Z;         (* [innerHTML] *)
  resultDisplayStyle : option string;   (* [style.display] *)
  resultWrites : list string
}.

Definition set_playerHealthBar (v : Q) (m : t) : t :=
  mk (Some v) (enemyHealthBar m) (timerDisplay m) (resultDisplayStyle m)
     (resultWrites m).
Definition set_enemyHealthBar (v : Q) (m : t) : t :=
  mk (playerHealthBar m) (Some v) (timerDisplay m) (resultDisplayStyle m)
     (resultWrites m).
Definition set_timerDisplay (v : Z) (m : t) : t :=
  mk (playerHealthBar m) (enemyHealthBar m) (Some v) (resultDisplayStyle m)
     (resultWrites m).
Definition set_resultDisplayStyle (v : string) (m : t) : t :=
  mk (playerHealthBar m) (enemyHealthBar m) (timerDisplay m) (Some v)
     (resultWrites m).
Definition write_result (v : string) (m : t) : t :=
  mk (playerHealthBar m) (enemyHealthBar m) (timerDisplay m)
     (resultDisplayStyle m) (v :: resultWrites m).
End Dom.

(** ** The global state *)

Module Game.
Record t : Set := mk {
  player : Sprite.t;
  enemy : Sprite.t;
  keys : Keys.t;
  timer : Z;
  timerId : option nat;            (* [None]: undefined *)
  gameRunning : bool;
  dom : Dom.t;
  now : N;                         (* logical clock, ms *)
  pending : list Timer.t;          (* scheduled, not fired, not cleared *)
  nextId : nat
}.

Definition set_player (v : Sprite.t) (g : t) : t :=
  mk v (enemy g) (keys g) (timer g) (timerId g) (gameRunning g) (dom g)
     (now g) (pending g) (nextId g).
Definition set_enemy (v : Sprite.t) (g : t) : t :=
  mk (player g) v (keys g) (timer g) (timerId g) (gameRunning g) (dom g)
     (now g) (pending g) (nextId g).
Definition set_keys (v : Keys.t) (g : t) : t :=
  mk (player g) (enemy g) v (timer g) (timerId g) (gameRunning g) (dom g)
     (now g) (pending g) (nextId g).
Definition set_timer (v : Z) (g : t) : t :=
  mk (player g) (enemy g) (keys g) v (timerId g) (gameRunning g) (dom g)
     (now g) (pending g) (nextId g).
Definition set_timerId (v : option nat) (g : t) : t :=
  mk (player g) (enemy g) (keys g) (timer g) v (gameRunning g) (dom g)
     (now g) (pending g) (nextId g).
Definition set_gameRunning (v : bool) (g : t) : t :=
  mk (player g) (enemy g) (keys g) (timer g) (timerId g) v (dom g)
     (now g) (pending g) (nextId g).
Definition set_dom (v : Dom.t) (g : t) : t :=
  mk (player g) (enemy g) (keys g) (timer g) (timerId g) (gameRunning g) v
     (now g) (pending g) (nextId g).
Definition set_now (v : N) (g : t) : t :=
  mk (player g) (enemy g) (keys g) (timer g) (timerId g) (gameRunning g)
     (dom g) v (pending g) (nextId g).
Definition set_pending (v : list Timer.t) (g : t) : t :=
  mk (player g) (enemy g) (keys g) (timer g) (timerId g) (gameRunning g)
     (dom g) (now g) v (nextId g).
Definition set_nextId (v : nat) (g : t) : t :=
  mk (player g) (enemy g) (keys g) (timer g) (timerId g) (gameRunning g)
     (dom g) (now g) (pending g) v.

Definition sprite (w : Who) (g : t) : Sprite.t :=
  match w with Player => player g | Enemy => enemy g end.
Definition set_sprite (w : Who) (v : Sprite.t) (g : t) : t :=
  match w with Player => set_player v g | Enemy => set_enemy v g end.
End Game.

(** [setTimeout(cb, delay)]: a new entry at the end of the queue, due
    [delay] ms from now; returns the identifier with the new state. *)
Definition setTimeout (cb : Callback) (delay : N) (g : Game.t)
  : nat * Game.t :=
  let i := Game.nextId g in
  (i, Game.set_nextId (S i)
        (Game.set_pending
           (Game.pending g ++ [Timer.mk i (Game.now g + delay)%N cb]) g)).

Definition dropTimer (i : nat) (l : list Timer.t) : list Timer.t :=
  filter (fun t => negb (Timer.id t =? i)%nat) l.

(** [clearTimeout(id)]; with [undefined] it does nothing. *)
Definition clearTimeout (i : option nat) (g : Game.t) : Game.t :=
  match i with
  | Some n => Game.set_pending (dropTimer n (Game.pending g)) g
  | None => g
  end.

(** The entry the host runs next: the least due time, and among equal due
    times the one scheduled first. *)
Fixpoint earliest (l : list Timer.t) : option Timer.t :=
  match l with
  | [] => None
  | t :: l' =>
      match earliest l' with
      | Some u => if (Timer.due u <? Timer.due t)%N then Some u else Some t
      | None => Some t
      end
  end.

(** ** Game objects (lines 135-157) and initial globals (lines 26-28) *)

Definition player0 : Sprite.t :=
  Sprite.new (Vec.mk 100 0) (Vec.mk 0 0) "#818cf8" (Vec.mk 0 50).

Definition enemy0 : Sprite.t :=
  Sprite.set_direction (-1)
    (Sprite.new (Vec.mk 800 0) (Vec.mk 0 0) "#f87171" (Vec.mk 0 50)).

Definition keys0 : Keys.t := Keys.mk false false false false false false.

Definition dom0 : Dom.t := Dom.mk None None None None [].

Definition init : Game.t :=
  Game.mk player0 enemy0 keys0 60 None true dom0 0%N [] 0%nat.

(** ** Mechanics *)

(** [rectangularCollision] (lines 163-170): attack box of [rectangle1]
    against the body of [rectangle2], on the exact edges;
    [Ieee.rectangularCollision] compares the edges as double precision
    rounds them. *)
Definition rectangularCollision (rectangle1 rectangle2 : Sprite.t) : bool :=
  let b := Sprite.attackBox rectangle1 in
  (Vec.x (AttackBox.position b) + AttackBox.width b
     >=? Vec.x (Sprite.position rectangle2)) &&
  (Vec.x (AttackBox.position b)
     <=? Vec.x (Sprite.position rectangle2) + Sprite.width rectangle2) &&
  (Vec.y (AttackBox.position b) + AttackBox.height b
     >=? Vec.y (Sprite.position rectangle2)) &&
  (Vec.y (AttackBox.position b)
     <=? Vec.y (Sprite.position rectangle2) + Sprite.height rectangle2).

(** The message chosen at lines 177-183. *)
Definition verdict (player enemy : Sprite.t) : string :=
  if Sprite.health player ===? Sprite.health enemy then "Tie"
  else if Sprite.health player >? Sprite.health enemy then "Player 1 Wins"
  else "Enemy Wins".

(** [determineWinner] (lines 172-184). *)
Definition determineWinner (player enemy : Sprite.t) (timerId : option nat)
    (g : Game.t) : Game.t :=
  let g1 := clearTimeout timerId g in
  let g2 := Game.set_gameRunning false g1 in
  let g3 := Game.set_dom (Dom.set_resultDisplayStyle "flex" (Game.dom g2)) g2 in
  Game.set_dom (Dom.write_result (verdict player enemy) (Game.dom g3)) g3.

(** [decreaseTimer] (lines 186-196). *)
Definition decreaseTimer (g : Game.t) : Game.t :=
  let g1 :=
    if (Game.timer g >? 0)%Z then
      let (i, g') := setTimeout CbDecreaseTimer 1000 g in
      let g'' := Game.set_timer (Game.timer g' - 1)%Z
                   (Game.set_timerId (Some i) g') in
      Game.set_dom (Dom.set_timerDisplay (Game.timer g'') (Game.dom g'')) g''
    else g in
  if (Game.timer g1 =? 0)%Z
  then determineWinner (Game.player g1) (Game.enemy g1) (Game.timerId g1) g1
  else g1.

(** [attack()] (lines 114-120) called on the sprite [this]. *)
Definition attack (this : Who) (g : Game.t) : Game.t :=
  let g1 := Game.set_sprite this (Sprite.startAttack (Game.sprite this g)) g in
  snd (setTimeout (CbResetAttack this) 100 g1).

(** [updateEnemyAI] (lines 199-229); [random] is the value [Math.random()]
    returns if line 225 is reached. *)
Definition updateEnemyAI (random : Q) (g : Game.t) : Game.t :=
  let enemy := Game.enemy g in
  let stop (e : Sprite.t) :=
    Sprite.set_velocity (Vec.mk 0 (Vec.y (Sprite.velocity e))) e in
  if Sprite.isDead enemy || negb (Game.gameRunning g) then
    Game.set_enemy (stop enemy) g
  else
    let detectionRange := 400 in
    let distanceX :=
      Vec.x (Sprite.position (Game.player g)) - Vec.x (Sprite.position enemy) in
    let distance := Qabs distanceX in
    let enemy := stop enemy in
    if (distance <? detectionRange) && (distance >? 60) then
      if distanceX >? 0 then
        Game.set_enemy
          (Sprite.set_direction 1
             (Sprite.set_velocity
                (Vec.mk 2 (Vec.y (Sprite.velocity enemy))) enemy)) g
      else
        Game.set_enemy
          (Sprite.set_direction (-1)
             (Sprite.set_velocity
                (Vec.mk (-2) (Vec.y (Sprite.velocity enemy))) enemy)) g
    else if distance <=? 60 then
      let enemy :=
        Sprite.set_direction
          (if distanceX >? 0 then 1%Z else (-1)%Z) enemy in
      let g1 := Game.set_enemy enemy g in
      if random <? 0.02 then attack Enemy g1 else g1
    else Game.set_enemy enemy g.

(** ** The main loop (lines 235-305), phase by phase *)

(** Lines 256-258. *)
Definition updateEntities (g : Game.t) : Game.t :=
  let g1 := Game.set_player (Sprite.update (Game.player g)) g in
  Game.set_enemy (Sprite.update (Game.enemy g1)) g1.

(** Lines 260-272: reset the player's horizontal velocity, then movement. *)
Definition playerMovement (g : Game.t) : Game.t :=
  let p := Game.player g in
  let p := Sprite.set_velocity (Vec.mk 0 (Vec.y (Sprite.velocity p))) p in
  let p :=
    if negb (Sprite.isDead p) && Game.gameRunning g then
      if Keys.a (Game.keys g) && String.eqb (Sprite.lastKey p) "a" then
        Sprite.set_direction (-1)
          (Sprite.set_velocity (Vec.mk (-5) (Vec.y (Sprite.velocity p))) p)
      else if Keys.d (Game.keys g) && String.eqb (Sprite.lastKey p) "d" then
        Sprite.set_direction 1
          (Sprite.set_velocity (Vec.mk 5 (Vec.y (Sprite.velocity p))) p)
      else p
    else p in
  Game.set_player p g.

(** Lines 277-287: player hitting enemy. *)
Definition playerHitsEnemy (g : Game.t) : Game.t :=
  if rectangularCollision (Game.player g) (Game.enemy g)
     && Sprite.isAttacking (Game.player g) && Game.gameRunning g
  then
    let g1 := Game.set_player (Sprite.set_isAttacking false (Game.player g)) g in
    if negb (Sprite.isDead (Game.enemy g1)) then
      let g2 := Game.set_enemy (Sprite.takeHit 10 (Game.enemy g1)) g1 in
      Game.set_dom
        (Dom.set_enemyHealthBar (Sprite.health (Game.enemy g2)) (Game.dom g2))
        g2
    else g1
  else g.

(** Lines 289-299: enemy hitting player. *)
Definition enemyHitsPlayer (g : Game.t) : Game.t :=
  if rectangularCollision (Game.enemy g) (Game.player g)
     && Sprite.isAttacking (Game.enemy g) && Game.gameRunning g
  then
    let g1 := Game.set_enemy (Sprite.set_isAttacking false (Game.enemy g)) g in
    if negb (Sprite.isDead (Game.player g1)) then
      let g2 := Game.set_player (Sprite.takeHit 10 (Game.player g1)) g1 in
      Game.set_dom
        (Dom.set_playerHealthBar (Sprite.health (Game.player g2)) (Game.dom g2))
        g2
    else g1
  else g.

(** Lines 301-304: end game check. *)
Definition endGameCheck (g : Game.t) : Game.t :=
  if (Sprite.health (Game.enemy g) <=? 0)
     || (Sprite.health (Game.player g) <=? 0)
  then determineWinner (Game.player g) (Game.enemy g) (Game.timerId g) g
  else g.

(** The state in which the two collision tests of a frame are made. *)
Definition beforeCollisions (random : Q) (g : Game.t) : Game.t :=
  updateEnemyAI random (playerMovement (updateEntities g)).

(** One call of [animate]. *)
Definition animate (random : Q) (g : Game.t) : Game.t :=
  endGameCheck (enemyHitsPlayer (playerHitsEnemy (beforeCollisions random g))).

(** ** Input handling (lines 311-341); [key] is
    [event.key.toLowerCase()]. *)

Definition keydown (key : string) (g : Game.t) : Game.t :=
  if negb (Game.gameRunning g) then g
  else if String.eqb key "d" then
    Game.set_player (Sprite.set_lastKey "d" (Game.player g))
      (Game.set_keys (Keys.set_d true (Game.keys g)) g)
  else if String.eqb key "a" then
    Game.set_player (Sprite.set_lastKey "a" (Game.player g))
      (Game.set_keys (Keys.set_a true (Game.keys g)) g)
  else if String.eqb key "w" then
    let p := Game.player g in
    if Vec.y (Sprite.velocity p) ===? 0
    then Game.set_player
           (Sprite.set_velocity (Vec.mk (Vec.x (Sprite.velocity p)) (-15)) p) g
    else g
  else if String.eqb key " " then attack Player g
  else g.

Definition keyup (key : string) (g : Game.t) : Game.t :=
  if String.eqb key "d" then Game.set_keys (Keys.set_d false (Game.keys g)) g
  else if String.eqb key "a" then
    Game.set_keys (Keys.set_a false (Game.keys g)) g
  else g.

(** ** Executions *)

(** What the host can do next.  [Fire] runs the callback of the earliest
    timer, which must be due; [Advance] lets time pass (a timer may fire
    late, never early). *)
Inductive Event : Set :=
| Frame (random : Q)
| KeyDown (key : string)
| KeyUp (key : string)
| Advance (dt : N)
| Fire.

Definition runCallback (cb : Callback) (g : Game.t) : Game.t :=
  match cb with
  | CbDecreaseTimer => decreaseTimer g
  | CbResetAttack this =>
      Game.set_sprite this (Sprite.resetAttack (Game.sprite this g)) g
  end.

Definition step (ev : Event) (g : Game.t) : option Game.t :=
  match ev with
  | Frame random => Some (animate random g)
  | KeyDown key => Some (keydown key g)
  | KeyUp key => Some (keyup key g)
  | Advance dt => Some (Game.set_now (Game.now g + dt)%N g)
  | Fire =>
      match earliest (Game.pending g) with
      | Some t =>
          if (Timer.due t <=? Game.now g)%N
          then Some (runCallback (Timer.callback t)
                       (Game.set_pending
                          (dropTimer (Timer.id t) (Game.pending g)) g))
          else None
      | None => None
      end
  end.

Fixpoint run (evs : list Event) (g : Game.t) : option Game.t :=
  match evs with
  | [] => Some g
  | ev :: evs' =>
      match step ev g with
      | Some g' => run evs' g'
      | None => None
      end
  end.

(** The state after line 344, [decreaseTimer()]; the [animate()] of line
    345 is the first [Frame] of an execution. *)
Definition boot : Game.t := decreaseTimer init.

(** The messages published so far, latest first. *)
Definition published (g : Game.t) : list string :=
  Dom.resultWrites (Game.dom g).

(** ** One sprite in double precision

    The methods of [Sprite] that add numbers and compare the sums, and
    [rectangularCollision], once more, over IEEE binary64: [+] and [-] round
    to nearest, and a comparison with NaN is false.  JavaScript's [a >= b]
    is [b <=? a], and [a > b] is [b <? a]. *)

Module Ieee.

(** Lines 10, 12-14; [GRAVITY] is the double nearest to 0.7. *)
Definition GRAVITY : float := 0x1.6666666666666p-1%float.
Definition GAME_WIDTH : float := 1024%float.
Definition GAME_HEIGHT : float := 576%float.
Definition GROUND_HEIGHT : float := 96%float.

Definition canvas_width : float := GAME_WIDTH.
Definition canvas_height : float := GAME_HEIGHT.

Module Vec.
Record t : Set := mk { x : float; y : float }.
End Vec.

Module AttackBox.
Record t : Set := mk {
  position : Vec.t;
  offset : Vec.t;
  width : float;
  height : float
}.

Definition set_position (p : Vec.t) (b : t) : t :=
  mk p (offset b) (width b) (height b).
End AttackBox.

Module Sprite.

Record t : Set := mk {
  position : Vec.t;
  velocity : Vec.t;
  width : float;
  height : float;
  lastKey : string;
  attackBox : AttackBox.t;
  color : string;
  isAttacking : bool;
  health : float;
  isDead : bool;
  direction : Z;
  isJumping : option bool
}.

Definition set_position (p : Vec.t) (s : t) : t :=
  mk p (velocity s) (width s) (height s) (lastKey s) (attackBox s)
     (color s) (isAttacking s) (health s) (isDead s) (direction s)
     (isJumping s).

Definition set_velocity (v : Vec.t) (s : t) : t :=
  mk (position s) v (width s) (height s) (lastKey s) (attackBox s)
     (color s) (isAttacking s) (health s) (isDead s) (direction s)
     (isJumping s).

Definition set_attackBox (b : AttackBox.t) (s : t) : t :=
  mk (position s) (velocity s) (width s) (height s) (lastKey s) b
     (color s) (isAttacking s) (health s) (isDead s) (direction s)
     (isJumping s).

Definition set_health (h : float) (s : t) : t :=
  mk (position s) (velocity s) (width s) (height s) (lastKey s)
     (attackBox s) (color s) (isAttacking s) h (isDead s) (direction s)
     (isJumping s).

Definition set_isDead (b : bool) (s : t) : t :=
  mk (position s) (velocity s) (width s) (height s) (lastKey s)
     (attackBox s) (color s) (isAttacking s) (health s) b (direction s)
     (isJumping s).

Definition set_direction (d : Z) (s : t) : t :=
  mk (position s) (velocity s) (width s) (height s) (lastKey s)
     (attackBox s) (color s) (isAttacking s) (health s) (isDead s) d
     (isJumping s).

Definition set_isJumping (j : option bool) (s : t) : t :=
  mk (position s) (velocity s) (width s) (height s) (lastKey s)
     (attackBox s) (color s) (isAttacking s) (health s) (isDead s)
     (direction s) j.

(** The constructor (lines 35-57). *)
Definition new (position velocity : Vec.t) (color : string)
    (offset : Vec.t) : t :=
  mk position velocity 50%float 150%float ""
     (AttackBox.mk (Vec.mk (Vec.x position) (Vec.y position)) offset
        100%float 50%float)
     color false 100%float false 1%Z None.

(** Lines 86-94. *)
Definition alignAttackBox (s : t) : t :=
  let b := attackBox s in
  let bx :=
    if (direction s =? 1)%Z
    then (Vec.x (position s) + Vec.x (AttackBox.offset b))%float
    else (Vec.x (position s) - AttackBox.width b + width s
          - Vec.x (AttackBox.offset b))%float in
  let by_ := (Vec.y (position s) + Vec.y (AttackBox.offset b))%float in
  set_attackBox (AttackBox.set_position (Vec.mk bx by_) b) s.

(** Lines 96-98. *)
Definition applyPosition (s : t) : t :=
  set_position
    (Vec.mk (Vec.x (position s) + Vec.x (velocity s))%float
            (Vec.y (position s) + Vec.y (velocity s))%float) s.

(** The test of line 101. *)
Definition reachesGround (s : t) : bool :=
  (canvas_height - GROUND_HEIGHT
   <=? Vec.y (position s) + height s + Vec.y (velocity s))%float.

(** Lines 100-107. *)
Definition applyGravity (s : t) : t :=
  if reachesGround s then
    let s1 := set_velocity (Vec.mk (Vec.x (velocity s)) 0%float) s in
    let s2 :=
      set_position
        (Vec.mk (Vec.x (position s1))
                (canvas_height - height s1 - GROUND_HEIGHT)%float) s1 in
    set_isJumping (Some false) s2
  else
    set_velocity
      (Vec.mk (Vec.x (velocity s)) (Vec.y (velocity s) + GRAVITY)%float) s.

(** Lines 109-111. *)
Definition screenBoundaries (s : t) : t :=
  let s1 :=
    if (Vec.x (position s) <? 0)%float
    then set_position (Vec.mk 0%float (Vec.y (position s))) s
    else s in
  if (canvas_width <? Vec.x (position s1) + width s1)%float
  then set_position
         (Vec.mk (canvas_width - width s1)%float (Vec.y (position s1))) s1
  else s1.

(** [update()] (lines 81-112); [this.draw()] only paints. *)
Definition update (s : t) : t :=
  if isDead s then s
  else screenBoundaries (applyGravity (applyPosition (alignAttackBox s))).

End Sprite.

(** The two fighters as constructed (lines 135-148). *)
Definition player0 : Sprite.t :=
  Sprite.new (Vec.mk 100 0) (Vec.mk 0 0) "#818cf8" (Vec.mk 0 50).

Definition enemy0 : Sprite.t :=
  Sprite.set_direction (-1)
    (Sprite.new (Vec.mk 800 0) (Vec.mk 0 0) "#f87171" (Vec.mk 0 50)).

(** [rectangularCollision] (lines 163-170). *)
Definition rectangularCollision (rectangle1 rectangle2 : Sprite.t) : bool :=
  let b := Sprite.attackBox rectangle1 in
  (Vec.x (Sprite.position rectangle2)
     <=? Vec.x (AttackBox.position b) + AttackBox.width b)%float &&
  (Vec.x (AttackBox.position b)
     <=? Vec.x (Sprite.position rectangle2) + Sprite.width rectangle2)%float &&
  (Vec.y (Sprite.position rectangle2)
     <=? Vec.y (AttackBox.position b) + AttackBox.height b)%float &&
  (Vec.y (AttackBox.position b)
     <=? Vec.y (Sprite.position rectangle2) + Sprite.height rectangle2)%float.

(** A point of the closed rectangle with the given four edges. *)
Definition inRectangle (left top right bottom : float) (px py : float)
  : Prop :=
  (left <=? px)%float = true /\ (px <=? right)%float = true /\
  (top <=? py)%float = true /\ (py <=? bottom)%float = true.

End Ieee.

(** ** Definitions used in the statements *)

(** Successive [takeHit] calls, in list order. *)
Definition hits (damages : list Q) (s : Sprite.t) : Sprite.t :=
  fold_left (fun s d => Sprite.takeHit d s) damages s.

(** What holds of health and [isDead] from construction on. *)
Definition healthy (s : Sprite.t) : Prop :=
  (Sprite.isDead s = true /\ Sprite.health s = 0) \/
  (Sprite.isDead s = false /\ 0 < Sprite.health s /\ Sprite.health s <= 100).

(** No timer of the queue runs [decreaseTimer]. *)
Definition noCountdown (l : list Timer.t) : Prop :=
  forall t, In t l -> Timer.callback t <> CbDecreaseTimer.

(** [g'] differs from [g] in nothing the outcome of the match depends on:
    same status, same published messages, same [timerId], same health and
    [isDead] on both sides, and no new [decreaseTimer] entry in the queue. *)
Definition quiet (g g' : Game.t) : Prop :=
  Game.gameRunning g' = Game.gameRunning g /\
  published g' = published g /\
  Game.timerId g' = Game.timerId g /\
  Sprite.health (Game.player g') = Sprite.health (Game.player g) /\
  Sprite.health (Game.enemy g') = Sprite.health (Game.enemy g) /\
  Sprite.isDead (Game.player g') = Sprite.isDead (Game.player g) /\
  Sprite.isDead (Game.enemy g') = Sprite.isDead (Game.enemy g) /\
  (forall t, In t (Game.pending g') -> Timer.callback t = CbDecreaseTimer ->
             In t (Game.pending g)).

(** The invariant of every execution. *)
Definition matchInv (g : Game.t) : Prop :=
  (Game.gameRunning g = true ->
     published g = [] /\
     0 < Sprite.health (Game.player g) /\ 0 < Sprite.health (Game.enemy g) /\
     Sprite.isDead (Game.player g) = false /\
     Sprite.isDead (Game.enemy g) = false) /\
  (Game.gameRunning g = false ->
     (exists n, published g
                = repeat (verdict (Game.player g) (Game.enemy g)) (S n)) /\
     (0 < Sprite.health (Game.player g) -> 0 < Sprite.health (Game.enemy g) ->
        published g = [verdict (Game.player g) (Game.enemy g)]) /\
     noCountdown (Game.pending g)) /\
  (forall t, In t (Game.pending g) -> Timer.callback t = CbDecreaseTimer ->
             Game.timerId g = Some (Timer.id t)).

(** A frame publishes again exactly when it finds a health at 0. *)
Definition republishes (ev : Event) (g : Game.t) : bool :=
  match ev with
  | Frame _ =>
      (Sprite.health (Game.enemy g) <=? 0)
      || (Sprite.health (Game.player g) <=? 0)
  | _ => false
  end.

(** The test of lines 278-281 (for the player) and 290-293 (for the enemy),
    as [animate] makes it in the frame that starts in [g]. *)
Definition confirmedHit (this : Who) (random : Q) (g : Game.t) : bool :=
  match this with
  | Player =>
      let g1 := beforeCollisions random g in
      rectangularCollision (Game.player g1) (Game.enemy g1)
      && Sprite.isAttacking (Game.player g1) && Game.gameRunning g1
  | Enemy =>
      let g2 := playerHitsEnemy (beforeCollisions random g) in
      rectangularCollision (Game.enemy g2) (Game.player g2)
      && Sprite.isAttacking (Game.enemy g2) && Game.gameRunning g2
  end.

(** ** Concrete sprites, states and executions used as inputs *)

(** A fighter whose health reached 0 while it was in the air, moving. *)
Definition fallenInAir : Sprite.t :=
  Sprite.set_isDead true
    (Sprite.set_health 0
       (Sprite.set_velocity (Vec.mk 5 20)
          (Sprite.set_position (Vec.mk 400 300) player0))).

(** The same fighter, alive. *)
Definition fallingInAir : Sprite.t :=
  Sprite.set_velocity (Vec.mk 5 20)
    (Sprite.set_position (Vec.mk 400 300) player0).

(** A fighter at the right edge of the canvas, walking right. *)
Definition runningOff : Sprite.t :=
  Sprite.set_velocity (Vec.mk 5 0)
    (Sprite.set_position (Vec.mk 972 330) player0).

(** The attack box of [player0] placed so that its right edge lies on the
    left edge of the body of [enemy0]. *)
Definition touchingPlayer : Sprite.t :=
  Sprite.alignAttackBox (Sprite.set_position (Vec.mk 700 0) player0).

(** A state in which the player stands 50 to the left of the enemy. *)
Definition closeQuarters : Game.t :=
  Game.set_player (Sprite.set_position (Vec.mk 750 0) player0) boot.

(** A state in which the player stands 200 to the right of the enemy. *)
Definition playerBehind : Game.t :=
  Game.set_player (Sprite.set_position (Vec.mk 1000 0) player0) boot.

(** [n] frames, 20 ms apart, in which [Math.random()] would return 0.5. *)
Definition frames (n : nat) : list Event :=
  List.concat (repeat [Advance 20; Frame 0.5] n).

(** One second of frames, then the countdown callback, which is due. *)
Definition oneSecond : list Event := frames 50 ++ [Fire].

(** The space bar, 100 ms of frames, then the reset of the attack. *)
Definition strike : list Event := [KeyDown " "] ++ frames 5 ++ [Fire].

(** The first frame; the player walks right for two seconds while the enemy
    closes in, then stands still for one second. *)
Definition approach : list Event :=
  [Frame 0.5; KeyDown "d"] ++ oneSecond ++ oneSecond
  ++ [KeyUp "d"] ++ oneSecond.

(** The state an execution ends in ([boot] if it is not one). *)
Definition stateAfter (evs : list Event) : Game.t :=
  match run evs boot with
  | Some g => g
  | None => boot
  end.

(** Nine strikes that connect, and the frame of the tenth: the enemy's
    health reaches 0 and the match ends. *)
Definition knockout : list Event :=
  approach ++ List.concat (repeat strike 9)
  ++ [KeyDown " "; Advance 20; Frame 0.5].

(** The state in which the knockout leaves the game. *)
Definition knockedOut : Game.t := stateAfter knockout.

(** No input at all: the first frame, then 59 times one second, the
    countdown callback and a frame. *)
Definition fullTime : list Event :=
  Frame 0.5 :: List.concat (repeat [Advance 1000; Fire; Frame 0.5] 59).



(** The first frame, the walk toward the enemy, and the space bar. *)
Definition duel : list Event := approach ++ [KeyDown " "].

(** The state in which the next frame makes its collision tests. *)
Definition duelState : Game.t := stateAfter duel.

(** The space bar at 0 ms and again at 50 ms, with frames in between. *)
Definition secondPress : list Event :=
  [Frame 0.5; KeyDown " "; Advance 20; Frame 0.5; Advance 20; Frame 0.5;
   Advance 10; KeyDown " "].

(** 50 ms later, at 100 ms, the reset of the first press is due. *)
Definition firstResetDue : list Event :=
  [Advance 10; Frame 0.5; Advance 20; Frame 0.5; Advance 20].

(** *** In double precision *)

(** A fighter whose health reached 0 while it was falling, 10 above the
    line on which it would stand. *)
Definition deadInAir : Ieee.Sprite.t :=
  Ieee.Sprite.set_isDead true
    (Ieee.Sprite.set_health 0
       (Ieee.Sprite.set_velocity (Ieee.Vec.mk 5 12)
          (Ieee.Sprite.set_position (Ieee.Vec.mk 400 320) Ieee.player0))).

(** The same fighter, alive. *)
Definition aliveInAir : Ieee.Sprite.t :=
  Ieee.Sprite.set_velocity (Ieee.Vec.mk 5 12)
    (Ieee.Sprite.set_position (Ieee.Vec.mk 400 320) Ieee.player0).

(** A fighter at [y = 302.4] falling at 13.8: the sum of line 101 is
    rounded to 480. *)
Definition roundedOntoGround : Ieee.Sprite.t :=
  Ieee.Sprite.set_velocity (Ieee.Vec.mk 0 0x1.b99999999999ap+3)
    (Ieee.Sprite.set_position (Ieee.Vec.mk 400 0x1.2e66666666666p+8)
       Ieee.player0).

(** A fighter at [y = 324.2] falling at 2.9: the sum of line 101 is
    rounded to the double just below 480. *)
Definition roundedOffGround : Ieee.Sprite.t :=
  Ieee.Sprite.set_velocity (Ieee.Vec.mk 0 0x1.7333333333333p+1)
    (Ieee.Sprite.set_position (Ieee.Vec.mk 400 0x1.4433333333333p+8)
       Ieee.player0).

(** A fighter at the right edge of the canvas, walking right. *)
Definition walkingOff : Ieee.Sprite.t :=
  Ieee.Sprite.set_velocity (Ieee.Vec.mk 5 0)
    (Ieee.Sprite.set_position (Ieee.Vec.mk 972 330) Ieee.player0).

(** A fighter standing at [x = 974.0000000000001], the double just above
    974: its right edge [x + 50] is rounded to 1024. *)
Definition pastTheEdge : Ieee.Sprite.t :=
  Ieee.Sprite.set_position (Ieee.Vec.mk 0x1.e700000000001p+9 330)
    Ieee.player0.

(** The attack box of the player placed so that its right edge lies on the
    left edge of the body of the enemy. *)
Definition boxTouching : Ieee.Sprite.t :=
  Ieee.Sprite.alignAttackBox
    (Ieee.Sprite.set_position (Ieee.Vec.mk 700 0) Ieee.player0).

(** An attack box at [x = 3 * 2^-48] and a body at [x = 100 + 2^-46], the
    double just above 100: the right edge of the box, [x + 100], is rounded
    to that same double. *)
Definition boxRoundedUp : Ieee.Sprite.t :=
  Ieee.Sprite.alignAttackBox
    (Ieee.Sprite.set_position (Ieee.Vec.mk 0x1.8p-47 0) Ieee.player0).

Definition bodyJustBeyond : Ieee.Sprite.t :=
  Ieee.Sprite.set_position (Ieee.Vec.mk 0x1.9000000000001p+6 0) Ieee.enemy0.

(** ** Definitions used in the further properties *)

(** The other fighter. *)
Definition opponent (this : Who) : Who :=
  match this with Player => Enemy | Enemy => Player end.

(** The fields a sprite gets in the constructor and nothing assigns later,
    and a facing direction that is one of the two the game uses. *)
Definition asConstructed (s : Sprite.t) : Prop :=
  Sprite.width s = 50 /\ Sprite.height s = 150 /\
  AttackBox.width (Sprite.attackBox s) = 100 /\
  AttackBox.height (Sprite.attackBox s) = 50 /\
  AttackBox.offset (Sprite.attackBox s) = Vec.mk 0 50 /\
  (Sprite.direction s = 1%Z \/ Sprite.direction s = (-1)%Z).

(** The body lies between the left and right edge of the canvas and its
    bottom edge is not below the ground. *)
Definition onStage (s : Sprite.t) : Prop :=
  0 <= Vec.x (Sprite.position s) /\
  Vec.x (Sprite.position s) + Sprite.width s <= canvas_width /\
  Vec.y (Sprite.position s) + Sprite.height s
    <= canvas_height - GROUND_HEIGHT.

(** The horizontal velocity is 0 or the walking speed, either way. *)
Definition walksAt (speed : Q) (s : Sprite.t) : Prop :=
  Vec.x (Sprite.velocity s) = 0 \/ Vec.x (Sprite.velocity s) = speed \/
  Vec.x (Sprite.velocity s) = - speed.

(** What every execution keeps of the shape, place and walking speed of a
    sprite. *)
Definition geom (speed : Q) (s : Sprite.t) : Prop :=
  asConstructed s /\ onStage s /\ walksAt speed s.

Definition stageInv (g : Game.t) : Prop :=
  geom 5 (Game.player g) /\ geom 2 (Game.enemy g).

(** What every execution keeps of the counter and of the timer queue,
    apart from what holds only while the match runs: the counter is within
    [0, 59] and shown; timer identifiers are distinct and below [nextId];
    [timerId] names no attack reset; and a set attack flag has a reset in
    the queue, due at most 100 ms from now. *)
Definition queueInv0 (g : Game.t) : Prop :=
  (0 <= Game.timer g <= 59)%Z /\
  Dom.timerDisplay (Game.dom g) = Some (Game.timer g) /\
  NoDup (map Timer.id (Game.pending g)) /\
  (forall t, In t (Game.pending g) -> (Timer.id t < Game.nextId g)%nat) /\
  (forall i, Game.timerId g = Some i ->
     (i < Game.nextId g)%nat /\
     forall t, In t (Game.pending g) -> Timer.id t = i ->
               Timer.callback t = CbDecreaseTimer) /\
  (forall this, Sprite.isAttacking (Game.sprite this g) = true ->
     exists t, In t (Game.pending g) /\
               Timer.callback t = CbResetAttack this /\
               (Timer.due t <= Game.now g + 100)%N).

(** While the match runs, the counter is positive and the countdown that
    [timerId] names is in the queue. *)
Definition queueInv (g : Game.t) : Prop :=
  queueInv0 g /\
  (Game.gameRunning g = true ->
     (0 < Game.timer g)%Z /\
     exists t, In t (Game.pending g) /\
               Timer.callback t = CbDecreaseTimer /\
               Game.timerId g = Some (Timer.id t)).

(** [g'] has the counter, the status, the clock and the timer queue of [g],
    and no attack flag that [g] has not. *)
Definition calm (g g' : Game.t) : Prop :=
  Game.timer g' = Game.timer g /\
  Dom.timerDisplay (Game.dom g') = Dom.timerDisplay (Game.dom g) /\
  Game.gameRunning g' = Game.gameRunning g /\
  Game.timerId g' = Game.timerId g /\
  Game.pending g' = Game.pending g /\
  Game.nextId g' = Game.nextId g /\
  Game.now g' = Game.now g /\
  (forall this, Sprite.isAttacking (Game.sprite this g') = true ->
                Sprite.isAttacking (Game.sprite this g) = true).

Definition isCountdown (t : Timer.t) : bool :=
  match Timer.callback t with CbDecreaseTimer => true | _ => false end.

(** A whole number of magnitude at most [2^50].  On such positions the
    sums and differences that lines 86-94 and 163-170 form with the sizes
    of the constructor are whole numbers below [2^53], which double
    precision computes without rounding. *)
Definition wholeNumber (q : Q) : Prop :=
  exists n : Z, q == inject_Z n /\ (Z.abs n <= 2 ^ 50)%Z.

(** ** Proof automation *)

(** Case analysis on the condition of a conditional in the goal. *)
Ltac case_if :=
  match goal with
  | |- context [if ?c then _ else _] => destruct c eqn:?
  end.

Ltac quiet_by_cases :=
  unfold quiet, published; repeat (case_if; cbn);
  repeat split; auto.

(** Side conditions of [geom_intro]: a field is as before, or has one of
    the values the code assigns. *)
Ltac geom_side :=
  cbn;
  first [ reflexivity
        | left; reflexivity
        | right; left; reflexivity
        | right; right; left; reflexivity
        | right; right; right; reflexivity
        | right; right; reflexivity ].

Ltac calm_by_cases :=
  unfold calm; repeat (case_if; cbn); repeat split; auto;
  intros []; cbn; auto.

(** Case analysis on the comparisons of mantissas and exponents in a goal
    about [SFcompare]. *)
Ltac sf_compare :=
  repeat match goal with
  | |- context [Pos.compare_cont Eq ?m ?n] =>
      change (Pos.compare_cont Eq m n) with (Pos.compare m n)
  | H : context [Pos.compare_cont Eq ?m ?n] |- _ =>
      change (Pos.compare_cont Eq m n) with (Pos.compare m n) in H
  end;
  repeat match goal with
  | H : context [Z.compare ?a ?b] |- _ => destruct (Z.compare_spec a b)
  | |- context [Z.compare ?a ?b] => destruct (Z.compare_spec a b)
  | H : context [Pos.compare ?a ?b] |- _ => destruct (Pos.compare_spec a b)
  | |- context [Pos.compare ?a ?b] => destruct (Pos.compare_spec a b)
  end;
  cbn in *; subst; try reflexivity; try discriminate; try lia.

(** * Properties *)

(** ** Comparisons *)

Lemma js_le_iff (a b : Q) : (a <=? b) = true <-> a <= b.
Proof. apply Qle_bool_iff. Qed.

Lemma js_ge_iff (a b : Q) : (a >=? b) = true <-> b <= a.
Proof. apply Qle_bool_iff. Qed.

Lemma js_lt_iff (a b : Q) : (a <? b) = true <-> a < b.
Proof.
  unfold js_lt. rewrite negb_true_iff.
  split; intro H.
  - apply Qnot_le_lt. intro L. apply Qle_bool_iff in L. congruence.
  - destruct (Qle_bool b a) eqn:E; [|reflexivity].
    apply Qle_bool_iff in E. exfalso. apply (Qlt_not_le _ _ H E).
Qed.

Lemma js_gt_iff (a b : Q) : (a >? b) = true <-> b < a.
Proof. apply (js_lt_iff b a). Qed.

Lemma js_eq_iff (a b : Q) : (a ===? b) = true <-> a == b.
Proof. apply Qeq_bool_iff. Qed.

Lemma js_le_false_iff (a b : Q) : (a <=? b) = false <-> b < a.
Proof.
  rewrite <- js_gt_iff. unfold js_gt, js_le.
  destruct (Qle_bool a b); simpl; split; congruence.
Qed.

Lemma js_ge_false_iff (a b : Q) : (a >=? b) = false <-> a < b.
Proof. apply (js_le_false_iff b a). Qed.

Lemma js_lt_false_iff (a b : Q) : (a <? b) = false <-> b <= a.
Proof.
  rewrite <- js_ge_iff. unfold js_lt, js_ge.
  destruct (Qle_bool b a); simpl; split; congruence.
Qed.

Lemma js_gt_false_iff (a b : Q) : (a >? b) = false <-> a <= b.
Proof. apply (js_lt_false_iff b a). Qed.

(** ** Comparisons in double precision

    [<=] on doubles is reflexive on everything but NaN, transitive, and
    total on everything but NaN; [===] implies [<=] both ways. *)

Lemma SFleb_refl (a b : spec_float) :
  SFleb a b = true -> SFleb a a = true /\ SFleb b b = true.
Proof.
  unfold SFleb, SFcompare.
  destruct a as [sa|sa| |sa ma ea], b as [sb|sb| |sb mb eb];
    try destruct sa; try destruct sb; cbn; intro H; try discriminate;
    (split; sf_compare).
Qed.

Lemma SFleb_total (a b : spec_float) :
  SFleb a a = true -> SFleb b b = true ->
  SFleb a b = false -> SFleb b a = true.
Proof.
  unfold SFleb, SFcompare.
  destruct a as [sa|sa| |sa ma ea], b as [sb|sb| |sb mb eb];
    try destruct sa; try destruct sb; cbn; intros Ha Hb H; try discriminate;
    try reflexivity; sf_compare.
Qed.

Lemma SFleb_trans (a b c : spec_float) :
  SFleb a b = true -> SFleb b c = true -> SFleb a c = true.
Proof.
  unfold SFleb, SFcompare.
  destruct a as [sa|sa| |sa ma ea], b as [sb|sb| |sb mb eb],
           c as [sc|sc| |sc mc ec];
    try destruct sa; try destruct sb; try destruct sc; cbn; intros H1 H2;
    try discriminate; try reflexivity; sf_compare.
Qed.

Lemma SFeqb_leb (a b : spec_float) :
  SFeqb a b = true -> SFleb a b = true /\ SFleb b a = true.
Proof.
  unfold SFeqb, SFleb, SFcompare.
  destruct a as [sa|sa| |sa ma ea], b as [sb|sb| |sb mb eb];
    try destruct sa; try destruct sb; cbn; intro H; try discriminate;
    (split; try reflexivity; sf_compare).
Qed.

Lemma float_leb_refl (a b : float) :
  (a <=? b)%float = true ->
  (a <=? a)%float = true /\ (b <=? b)%float = true.
Proof. rewrite !leb_spec. apply SFleb_refl. Qed.

Lemma float_leb_total (a b : float) :
  (a <=? a)%float = true -> (b <=? b)%float = true ->
  (a <=? b)%float = false -> (b <=? a)%float = true.
Proof. rewrite !leb_spec. apply SFleb_total. Qed.

Lemma float_leb_trans (a b c : float) :
  (a <=? b)%float = true -> (b <=? c)%float = true ->
  (a <=? c)%float = true.
Proof. rewrite !leb_spec. apply SFleb_trans. Qed.

Lemma float_eqb_leb (a b : float) :
  (a =? b)%float = true ->
  (a <=? b)%float = true /\ (b <=? a)%float = true.
Proof. rewrite eqb_spec, !leb_spec. apply SFeqb_leb. Qed.

(** ** The per-tick update of a sprite *)

(** C10. [update()] writes only [position], [velocity],
    [attackBox.position] and [isJumping]: for every sprite, dead or alive,
    health, isDead, isAttacking, direction, color, width, height, lastKey and
    the attack box's offset, width and height are the same before and
    after. *)
Theorem update_frame (s : Sprite.t) :
  Sprite.health (Sprite.update s) = Sprite.health s /\
  Sprite.isDead (Sprite.update s) = Sprite.isDead s /\
  Sprite.isAttacking (Sprite.update s) = Sprite.isAttacking s /\
  Sprite.direction (Sprite.update s) = Sprite.direction s /\
  Sprite.color (Sprite.update s) = Sprite.color s /\
  Sprite.width (Sprite.update s) = Sprite.width s /\
  Sprite.height (Sprite.update s) = Sprite.height s /\
  Sprite.lastKey (Sprite.update s) = Sprite.lastKey s /\
  AttackBox.offset (Sprite.attackBox (Sprite.update s))
    = AttackBox.offset (Sprite.attackBox s) /\
  AttackBox.width (Sprite.attackBox (Sprite.update s))
    = AttackBox.width (Sprite.attackBox s) /\
  AttackBox.height (Sprite.attackBox (Sprite.update s))
    = AttackBox.height (Sprite.attackBox s).
Proof.
  unfold Sprite.update, Sprite.screenBoundaries, Sprite.applyGravity.
  repeat (case_if; cbn); repeat split; assumption.
Qed.

(** C6. The alignment step of [update()] (lines 86-94) places the attack
    box from the position, the offset and the facing direction the sprite
    has at that point: facing right ([direction = 1]) its x is
    [position.x + offset.x]; facing left (any other direction, [-1] in the
    game) its x is [position.x - attackBox.width + width - offset.x]; in
    both cases its y is [position.y + offset.y].  For a living sprite this
    is the attack box [update()] leaves. *)
Theorem attackBox_alignment (s : Sprite.t) :
  let b := Sprite.attackBox s in
  let p := AttackBox.position (Sprite.attackBox (Sprite.alignAttackBox s)) in
  (Sprite.direction s = 1%Z ->
     Vec.x p = Vec.x (Sprite.position s) + Vec.x (AttackBox.offset b)) /\
  (Sprite.direction s <> 1%Z ->
     Vec.x p = Vec.x (Sprite.position s) - AttackBox.width b + Sprite.width s
               - Vec.x (AttackBox.offset b)) /\
  Vec.y p = Vec.y (Sprite.position s) + Vec.y (AttackBox.offset b) /\
  (Sprite.isDead s = false ->
     Sprite.attackBox (Sprite.update s)
       = Sprite.attackBox (Sprite.alignAttackBox s)).
Proof.
  cbn. repeat split.
  - intros ->. reflexivity.
  - intro H. apply Z.eqb_neq in H. rewrite H. reflexivity.
  - intro H. unfold Sprite.update. rewrite H.
    unfold Sprite.screenBoundaries, Sprite.applyGravity.
    repeat (case_if; cbn); reflexivity.
Qed.

Lemma attackBox_alignment_witness :
  Vec.x (AttackBox.position (Sprite.attackBox (Sprite.alignAttackBox player0)))
    = 100 + 0 /\
  Vec.x (AttackBox.position (Sprite.attackBox (Sprite.alignAttackBox enemy0)))
    = 800 - 100 + 50 - 0 /\
  Sprite.attackBox (Sprite.update enemy0)
    = Sprite.attackBox (Sprite.alignAttackBox enemy0).
Proof.
  split; [|split].
  - apply (attackBox_alignment player0). reflexivity.
  - apply (attackBox_alignment enemy0). discriminate.
  - apply (attackBox_alignment enemy0). reflexivity.
Defined.

(** C2, as stated, fails: the update of a dead sprite returns at line 84,
    before the alignment and the gravity code.  For [fallenInAir] the attack
    box stays where it was, not at the aligned place, and the vertical
    velocity does not receive gravity. *)
Lemma dead_update_still_aligns_refuted :
  Sprite.isDead fallenInAir = true /\
  AttackBox.position (Sprite.attackBox (Sprite.update fallenInAir))
    = Vec.mk 100 0 /\
  AttackBox.position (Sprite.attackBox (Sprite.alignAttackBox fallenInAir))
    = Vec.mk (400 + 0) (300 + 50) /\
  Sprite.attackBox (Sprite.update fallenInAir)
    <> Sprite.attackBox (Sprite.alignAttackBox fallenInAir) /\
  Vec.y (Sprite.velocity (Sprite.update fallenInAir)) = 20.
Proof.
  repeat split; try reflexivity.
  cbv. discriminate.
Qed.

(** C2, amended.  The update of a dead sprite changes nothing at all: no
    alignment of the attack box, no gravity, no movement.  Alignment,
    movement, gravity and the boundary clamp run exactly for the sprites
    that are not dead. *)
Theorem update_dead_unchanged (s : Sprite.t) :
  (Sprite.isDead s = true -> Sprite.update s = s) /\
  (Sprite.isDead s = false ->
     Sprite.update s
       = Sprite.screenBoundaries
           (Sprite.applyGravity
              (Sprite.applyPosition (Sprite.alignAttackBox s)))).
Proof.
  unfold Sprite.update. split; intros ->; reflexivity.
Qed.

Lemma update_dead_unchanged_witness :
  Sprite.update fallenInAir = fallenInAir /\
  Sprite.update fallingInAir
    = Sprite.screenBoundaries
        (Sprite.applyGravity
           (Sprite.applyPosition (Sprite.alignAttackBox fallingInAir))).
Proof.
  split.
  - apply (update_dead_unchanged fallenInAir). reflexivity.
  - apply (update_dead_unchanged fallingInAir). reflexivity.
Defined.

(** C7, as stated for every entity, fails on a dead one.  [deadInAir] moves
    down at 12 per tick from [y = 320]; its next position, 332, is past the
    line [GAME_HEIGHT - GROUND_HEIGHT - height = 330], and the test of line
    101 would hold after the move.  Yet [update()] leaves its vertical
    velocity at 12 and its vertical position at 320. *)
Lemma ground_snap_every_entity_refuted :
  (0 <? Ieee.Vec.y (Ieee.Sprite.velocity deadInAir))%float = true /\
  (Ieee.GAME_HEIGHT - Ieee.GROUND_HEIGHT - Ieee.Sprite.height deadInAir
     <? Ieee.Vec.y (Ieee.Sprite.position deadInAir)
        + Ieee.Vec.y (Ieee.Sprite.velocity deadInAir))%float = true /\
  Ieee.Sprite.reachesGround
    (Ieee.Sprite.applyPosition (Ieee.Sprite.alignAttackBox deadInAir))
    = true /\
  Ieee.Vec.y (Ieee.Sprite.velocity (Ieee.Sprite.update deadInAir))
    = 12%float /\
  Ieee.Vec.y (Ieee.Sprite.position (Ieee.Sprite.update deadInAir))
    = 320%float /\
  (Ieee.Vec.y (Ieee.Sprite.velocity (Ieee.Sprite.update deadInAir))
     =? 0)%float = false /\
  (Ieee.Vec.y (Ieee.Sprite.position (Ieee.Sprite.update deadInAir))
     =? Ieee.GAME_HEIGHT - Ieee.GROUND_HEIGHT
        - Ieee.Sprite.height deadInAir)%float = false.
Proof.
  repeat split; vm_compute; reflexivity.
Qed.

Lemma Ieee_screenBoundaries_vertical (t : Ieee.Sprite.t) :
  Ieee.Vec.y (Ieee.Sprite.position (Ieee.Sprite.screenBoundaries t))
    = Ieee.Vec.y (Ieee.Sprite.position t) /\
  Ieee.Sprite.velocity (Ieee.Sprite.screenBoundaries t)
    = Ieee.Sprite.velocity t.
Proof.
  unfold Ieee.Sprite.screenBoundaries.
  repeat (case_if; cbn); split; reflexivity.
Qed.

(** C7, amended, in double precision.  A dead sprite is left unchanged.
    For a sprite that is not dead, whatever its vertical velocity [vy]: the
    tick moves it to [y + vy] and then tests, at line 101, whether the
    bottom edge projected one more step, [(y + vy) + height + vy] as the
    code computes it, is at or below the floor [canvas.height -
    GROUND_HEIGHT].  When the test holds the tick leaves the vertical
    velocity exactly 0 and the vertical position exactly
    [canvas.height - height - GROUND_HEIGHT]; otherwise it leaves the
    vertical position at [y + vy] and adds [GRAVITY] to the vertical
    velocity.  For the height 150 that every sprite of the game has, the
    position it is pinned to is 330, which is also
    [GAME_HEIGHT - GROUND_HEIGHT - height]. *)
Theorem ground_snap (s : Ieee.Sprite.t) :
  let y := Ieee.Vec.y (Ieee.Sprite.position s) in
  let vy := Ieee.Vec.y (Ieee.Sprite.velocity s) in
  let test :=
    (Ieee.canvas_height - Ieee.GROUND_HEIGHT
       <=? y + vy + Ieee.Sprite.height s + vy)%float in
  let s' := Ieee.Sprite.update s in
  (Ieee.Sprite.isDead s = true -> s' = s) /\
  (Ieee.Sprite.isDead s = false ->
     (test = true ->
        Ieee.Vec.y (Ieee.Sprite.velocity s') = 0%float /\
        Ieee.Vec.y (Ieee.Sprite.position s')
          = (Ieee.canvas_height - Ieee.Sprite.height s
             - Ieee.GROUND_HEIGHT)%float) /\
     (test = false ->
        Ieee.Vec.y (Ieee.Sprite.velocity s') = (vy + Ieee.GRAVITY)%float /\
        Ieee.Vec.y (Ieee.Sprite.position s') = (y + vy)%float)) /\
  (Ieee.Sprite.height s = 150%float ->
     (Ieee.canvas_height - Ieee.Sprite.height s - Ieee.GROUND_HEIGHT)%float
       = 330%float /\
     (Ieee.GAME_HEIGHT - Ieee.GROUND_HEIGHT - Ieee.Sprite.height s)%float
       = 330%float).
Proof.
  intros y vy test s'. subst s'. unfold Ieee.Sprite.update.
  split; [|split].
  - intros ->. reflexivity.
  - intros ->.
    set (s1 := Ieee.Sprite.applyPosition (Ieee.Sprite.alignAttackBox s)).
    assert (T : Ieee.Sprite.reachesGround s1 = test) by reflexivity.
    destruct (Ieee_screenBoundaries_vertical (Ieee.Sprite.applyGravity s1))
      as (Y & V).
    rewrite Y, V. unfold Ieee.Sprite.applyGravity. rewrite T.
    split; intros ->; split; reflexivity.
  - intros ->. split; reflexivity.
Qed.

(** The dead fighter in the air stays as it is; the living one is put on
    the line 330 with vertical velocity 0; so is the one whose sum is
    rounded up to 480; the one whose sum is rounded to just below 480 keeps
    falling, and so does the player as constructed. *)
Lemma ground_snap_witness :
  Ieee.Sprite.update deadInAir = deadInAir /\
  (Ieee.Vec.y (Ieee.Sprite.velocity (Ieee.Sprite.update aliveInAir))
     = 0%float /\
   Ieee.Vec.y (Ieee.Sprite.position (Ieee.Sprite.update aliveInAir))
     = 330%float) /\
  (Ieee.Vec.y (Ieee.Sprite.velocity (Ieee.Sprite.update roundedOntoGround))
     = 0%float /\
   Ieee.Vec.y (Ieee.Sprite.position (Ieee.Sprite.update roundedOntoGround))
     = 330%float) /\
  (Ieee.Vec.y (Ieee.Sprite.velocity (Ieee.Sprite.update roundedOffGround))
     = (0x1.7333333333333p+1 + Ieee.GRAVITY)%float /\
   Ieee.Vec.y (Ieee.Sprite.position (Ieee.Sprite.update roundedOffGround))
     = (0x1.4433333333333p+8 + 0x1.7333333333333p+1)%float) /\
  (Ieee.Vec.y (Ieee.Sprite.velocity (Ieee.Sprite.update Ieee.player0))
     = Ieee.GRAVITY /\
   Ieee.Vec.y (Ieee.Sprite.position (Ieee.Sprite.update Ieee.player0))
     = 0%float).
Proof.
  split; [|split; [|split; [|split]]].
  - exact (proj1 (ground_snap deadInAir) eq_refl).
  - exact (proj1 (proj1 (proj2 (ground_snap aliveInAir)) eq_refl) eq_refl).
  - exact (proj1 (proj1 (proj2 (ground_snap roundedOntoGround)) eq_refl)
             eq_refl).
  - exact (proj2 (proj1 (proj2 (ground_snap roundedOffGround)) eq_refl)
             eq_refl).
  - exact (proj2 (proj1 (proj2 (ground_snap Ieee.player0)) eq_refl) eq_refl).
Defined.

(** ** Damage *)

Lemma healthy_new (position velocity : Vec.t) (color : string)
    (offset : Vec.t) :
  healthy (Sprite.new position velocity color offset).
Proof. right. cbn. repeat split; lra. Qed.

Lemma healthy_takeHit (d : Q) (s : Sprite.t) :
  0 <= d -> healthy s -> healthy (Sprite.takeHit d s).
Proof.
  intros Hd [[D H]|[D [Hpos Hle]]]; unfold Sprite.takeHit; cbn.
  - rewrite H. destruct (0 - d <=? 0) eqn:E; cbn.
    + left. split; reflexivity.
    + apply js_le_false_iff in E. lra.
  - destruct (Sprite.health s - d <=? 0) eqn:E; cbn.
    + left. split; reflexivity.
    + apply js_le_false_iff in E. right. cbn. repeat split; [assumption|lra|lra].
Qed.

Lemma healthy_hits (ds : list Q) :
  Forall (fun d => 0 <= d) ds ->
  forall s, healthy s -> healthy (hits ds s).
Proof.
  induction 1 as [|d ds Hd _ IH]; intros s Hs; cbn.
  - exact Hs.
  - apply IH, healthy_takeHit; assumption.
Qed.

Lemma takeHit_dead (d : Q) (s : Sprite.t) :
  0 <= d -> Sprite.isDead s = true -> Sprite.health s = 0 ->
  Sprite.takeHit d s = s.
Proof.
  intros Hd D H. unfold Sprite.takeHit. cbn. rewrite H.
  destruct (0 - d <=? 0) eqn:E.
  - destruct s; cbn in *. subst. reflexivity.
  - apply js_le_false_iff in E. lra.
Qed.

(** C3. Start from a newly constructed sprite and apply any sequence of
    [takeHit] calls with nonnegative amounts.  The health stays within
    [0, 100], [isDead] is true exactly when the health is 0, and on a dead
    sprite a further hit changes nothing (the health stays 0). *)
Theorem takeHit_health_bounds (position velocity : Vec.t) (color : string)
    (offset : Vec.t) (damages : list Q) :
  Forall (fun d => 0 <= d) damages ->
  let s := hits damages (Sprite.new position velocity color offset) in
  0 <= Sprite.health s /\ Sprite.health s <= 100 /\
  (Sprite.isDead s = true <-> Sprite.health s == 0) /\
  (Sprite.isDead s = true ->
     forall d, 0 <= d -> Sprite.takeHit d s = s /\
                         Sprite.health (Sprite.takeHit d s) = 0).
Proof.
  intros Hds s.
  assert (Hs : healthy s) by (apply healthy_hits; [assumption|apply healthy_new]).
  destruct Hs as [[D H]|[D [Hpos Hle]]].
  - rewrite H. split; [lra|]. split; [lra|]. split.
    + split; intro; [reflexivity|assumption].
    + intros _ d Hd. rewrite (takeHit_dead d s Hd D H). split; [reflexivity|assumption].
  - rewrite D. split; [lra|]. split; [lra|]. split.
    + split; [discriminate|]. intro E. lra.
    + discriminate.
Qed.

Lemma takeHit_health_bounds_witness :
  let s := hits [10; 0; 35.5; 70; 10]
             (Sprite.new (Vec.mk 100 0) (Vec.mk 0 0) "#818cf8" (Vec.mk 0 50)) in
  0 <= Sprite.health s /\ Sprite.health s <= 100 /\
  (Sprite.isDead s = true <-> Sprite.health s == 0) /\
  (Sprite.isDead s = true ->
     forall d, 0 <= d -> Sprite.takeHit d s = s /\
                         Sprite.health (Sprite.takeHit d s) = 0).
Proof.
  apply (takeHit_health_bounds (Vec.mk 100 0) (Vec.mk 0 0) "#818cf8"
           (Vec.mk 0 50) [10; 0; 35.5; 70; 10]).
  repeat constructor; discriminate.
Defined.

(** ** Collision *)

(** C9, in double precision.  [rectangularCollision] is a function of its
    two arguments only.  It returns true exactly when the four inclusive
    comparisons hold between the edges of the attack box of the first
    sprite and the edges of the body of the second, the right and bottom
    edges being the sums [x + width] and [y + height] that lines 165-168
    compute.  When in each rectangle the right edge is not left of the left
    edge and the bottom edge not above the top edge (as for every finite
    position and the sizes of the constructor), this is the same as the two
    closed rectangles having a point in common, and a box whose edge equals
    the facing edge of the body collides as soon as the rectangles overlap
    in the other direction. *)
Theorem rectangularCollision_inclusive
    (rectangle1 rectangle2 : Ieee.Sprite.t) :
  let b := Ieee.Sprite.attackBox rectangle1 in
  let left1 := Ieee.Vec.x (Ieee.AttackBox.position b) in
  let top1 := Ieee.Vec.y (Ieee.AttackBox.position b) in
  let right1 := (left1 + Ieee.AttackBox.width b)%float in
  let bottom1 := (top1 + Ieee.AttackBox.height b)%float in
  let left2 := Ieee.Vec.x (Ieee.Sprite.position rectangle2) in
  let top2 := Ieee.Vec.y (Ieee.Sprite.position rectangle2) in
  let right2 := (left2 + Ieee.Sprite.width rectangle2)%float in
  let bottom2 := (top2 + Ieee.Sprite.height rectangle2)%float in
  (Ieee.rectangularCollision rectangle1 rectangle2 = true <->
     (left2 <=? right1)%float = true /\ (left1 <=? right2)%float = true /\
     (top2 <=? bottom1)%float = true /\ (top1 <=? bottom2)%float = true) /\
  ((left1 <=? right1)%float = true -> (top1 <=? bottom1)%float = true ->
   (left2 <=? right2)%float = true -> (top2 <=? bottom2)%float = true ->
     (Ieee.rectangularCollision rectangle1 rectangle2 = true <->
        exists px py,
          Ieee.inRectangle left1 top1 right1 bottom1 px py /\
          Ieee.inRectangle left2 top2 right2 bottom2 px py) /\
     ((right1 =? left2)%float = true \/ (left1 =? right2)%float = true ->
      (top2 <=? bottom1)%float = true -> (top1 <=? bottom2)%float = true ->
        Ieee.rectangularCollision rectangle1 rectangle2 = true) /\
     ((bottom1 =? top2)%float = true \/ (top1 =? bottom2)%float = true ->
      (left2 <=? right1)%float = true -> (left1 <=? right2)%float = true ->
        Ieee.rectangularCollision rectangle1 rectangle2 = true)).
Proof.
  intros b left1 top1 right1 bottom1 left2 top2 right2 bottom2.
  assert (Hiff : Ieee.rectangularCollision rectangle1 rectangle2 = true <->
     (left2 <=? right1)%float = true /\ (left1 <=? right2)%float = true /\
     (top2 <=? bottom1)%float = true /\ (top1 <=? bottom2)%float = true).
  { subst right1 bottom1 right2 bottom2 left1 top1 left2 top2 b.
    unfold Ieee.rectangularCollision. cbv zeta.
    rewrite !andb_true_iff. tauto. }
  clearbody right1 bottom1 right2 bottom2 left1 top1 left2 top2.
  split; [exact Hiff|].
  intros Nx1 Ny1 Nx2 Ny2. split; [|split].
  - rewrite Hiff. unfold Ieee.inRectangle. split.
    + intros (A & B & C & D).
      exists (if (left1 <=? left2)%float then left2 else left1),
             (if (top1 <=? top2)%float then top2 else top1).
      destruct (float_leb_refl _ _ Nx1) as (Rl1 & _).
      destruct (float_leb_refl _ _ Nx2) as (Rl2 & _).
      destruct (float_leb_refl _ _ Ny1) as (Rt1 & _).
      destruct (float_leb_refl _ _ Ny2) as (Rt2 & _).
      destruct (left1 <=? left2)%float eqn:X;
        destruct (top1 <=? top2)%float eqn:Y;
        repeat split; auto using float_leb_total.
    + intros (px & py & (A1 & A2 & A3 & A4) & (B1 & B2 & B3 & B4)).
      repeat split; eauto using float_leb_trans.
  - intros T C D. apply Hiff.
    destruct T as [T|T]; apply float_eqb_leb in T; destruct T as (T1 & T2);
      repeat split; eauto using float_leb_trans.
  - intros T A B. apply Hiff.
    destruct T as [T|T]; apply float_eqb_leb in T; destruct T as (T1 & T2);
      repeat split; eauto using float_leb_trans.
Qed.

(** The box of the player at [x = 700] ends at 800, where the body of the
    enemy begins: they collide and have a point in common.  The box at
    [3 * 2^-48] ends, as computed, at the double just above 100, where
    [bodyJustBeyond] begins: they collide as well. *)
Lemma rectangularCollision_inclusive_witness :
  Ieee.rectangularCollision boxTouching Ieee.enemy0 = true /\
  (exists px py, Ieee.inRectangle 700 50 800 100 px py /\
                 Ieee.inRectangle 800 0 850 150 px py) /\
  Ieee.rectangularCollision boxRoundedUp bodyJustBeyond = true.
Proof.
  pose proof (rectangularCollision_inclusive boxTouching Ieee.enemy0)
    as (_ & H).
  destruct (H eq_refl eq_refl eq_refl eq_refl) as (I & T & _).
  assert (C : Ieee.rectangularCollision boxTouching Ieee.enemy0 = true).
  { apply T; [left|..]; reflexivity. }
  split; [exact C|]. split.
  - apply (proj1 I). exact C.
  - refine (proj1 (proj2 (proj2 (rectangularCollision_inclusive
              boxRoundedUp bodyJustBeyond) eq_refl eq_refl eq_refl eq_refl))
              _ _ _);
      [left|..]; reflexivity.
Defined.

(** ** The enemy AI *)

(** C8. [updateEnemyAI] is decided by the signed horizontal distance
    [distanceX = player.position.x - enemy.position.x].  If the enemy is
    dead or the match is not running, only the enemy's horizontal velocity
    is zeroed.  Otherwise: if [60 < |distanceX| < 400] the velocity is 2
    toward the player and the enemy faces the player; if [|distanceX| <= 60]
    the horizontal velocity is 0, the enemy faces the player (left when both
    are at the same x) and [attack()] is called exactly when the draw of
    [Math.random()] is below 0.02; if [|distanceX| >= 400] only the
    horizontal velocity is zeroed. *)
Theorem updateEnemyAI_policy (random : Q) (g : Game.t) :
  let e := Game.enemy g in
  let distanceX :=
    Vec.x (Sprite.position (Game.player g)) - Vec.x (Sprite.position e) in
  let moving (vx : Q) :=
    Sprite.set_velocity (Vec.mk vx (Vec.y (Sprite.velocity e))) e in
  (Sprite.isDead e = true \/ Game.gameRunning g = false ->
     updateEnemyAI random g = Game.set_enemy (moving 0) g) /\
  (Sprite.isDead e = false -> Game.gameRunning g = true ->
     (60 < Qabs distanceX -> Qabs distanceX < 400 ->
        (0 < distanceX ->
           updateEnemyAI random g
             = Game.set_enemy (Sprite.set_direction 1 (moving 2)) g) /\
        (distanceX < 0 ->
           updateEnemyAI random g
             = Game.set_enemy (Sprite.set_direction (-1) (moving (-2))) g)) /\
     (Qabs distanceX <= 60 ->
        (0 < distanceX ->
           (random < 0.02 ->
              updateEnemyAI random g
                = attack Enemy
                    (Game.set_enemy (Sprite.set_direction 1 (moving 0)) g)) /\
           (0.02 <= random ->
              updateEnemyAI random g
                = Game.set_enemy (Sprite.set_direction 1 (moving 0)) g)) /\
        (distanceX <= 0 ->
           (random < 0.02 ->
              updateEnemyAI random g
                = attack Enemy
                    (Game.set_enemy (Sprite.set_direction (-1) (moving 0)) g)) /\
           (0.02 <= random ->
              updateEnemyAI random g
                = Game.set_enemy (Sprite.set_direction (-1) (moving 0)) g))) /\
     (400 <= Qabs distanceX ->
        updateEnemyAI random g = Game.set_enemy (moving 0) g)).
Proof.
  intros e distanceX moving. split.
  - intros [D|R]; unfold updateEnemyAI; fold e.
    + rewrite D. reflexivity.
    + rewrite R, orb_true_r. reflexivity.
  - intros D R. unfold updateEnemyAI. fold e. rewrite D, R. cbn [orb negb].
    fold distanceX. split; [|split].
    + intros Hlo Hhi.
      apply js_lt_iff in Hhi. apply js_gt_iff in Hlo. rewrite Hhi, Hlo.
      cbn [andb]. split; intro Hd.
      * apply js_gt_iff in Hd. rewrite Hd. reflexivity.
      * assert (Hn : (distanceX >? 0) = false) by (apply js_gt_false_iff; lra).
        rewrite Hn. reflexivity.
    + intro Hnear.
      assert (Hgt : (Qabs distanceX >? 60) = false)
        by (apply js_gt_false_iff; assumption).
      rewrite Hgt, andb_false_r.
      apply js_le_iff in Hnear. rewrite Hnear.
      split; intro Hd.
      * apply js_gt_iff in Hd. rewrite Hd. split; intro Hr.
        -- apply js_lt_iff in Hr. rewrite Hr. reflexivity.
        -- apply js_lt_false_iff in Hr. rewrite Hr. reflexivity.
      * apply js_gt_false_iff in Hd. rewrite Hd. split; intro Hr.
        -- apply js_lt_iff in Hr. rewrite Hr. reflexivity.
        -- apply js_lt_false_iff in Hr. rewrite Hr. reflexivity.
    + intro Hfar.
      assert (Hlt : (Qabs distanceX <? 400) = false)
        by (apply js_lt_false_iff; assumption).
      assert (Hle : (Qabs distanceX <=? 60) = false)
        by (apply js_le_false_iff; lra).
      rewrite Hlt, Hle. reflexivity.
Qed.

Lemma updateEnemyAI_policy_witness :
  Vec.x (Sprite.velocity (Game.enemy (updateEnemyAI 0.5 boot))) = 0 /\
  Sprite.direction (Game.enemy (updateEnemyAI 0.5 boot)) = (-1)%Z /\
  Vec.x (Sprite.velocity (Game.enemy (updateEnemyAI 0.5 playerBehind))) = 2 /\
  Sprite.direction (Game.enemy (updateEnemyAI 0.5 playerBehind)) = 1%Z /\
  Sprite.isAttacking (Game.enemy (updateEnemyAI 0.01 closeQuarters)) = true /\
  Sprite.isAttacking (Game.enemy (updateEnemyAI 0.5 closeQuarters)) = false.
Proof.
  pose proof (updateEnemyAI_policy 0.5 boot) as (_ & A).
  pose proof (updateEnemyAI_policy 0.5 playerBehind) as (_ & B).
  pose proof (updateEnemyAI_policy 0.01 closeQuarters) as (_ & C).
  pose proof (updateEnemyAI_policy 0.5 closeQuarters) as (_ & D).
  destruct (A eq_refl eq_refl) as (_ & _ & A3).
  destruct (B eq_refl eq_refl) as (B1 & _ & _).
  destruct (C eq_refl eq_refl) as (_ & C2 & _).
  destruct (D eq_refl eq_refl) as (_ & D2 & _).
  rewrite A3 by (cbv; discriminate).
  destruct B1 as (B1 & _); try reflexivity. rewrite B1 by reflexivity.
  destruct C2 as (_ & C2); try (cbv; discriminate).
  destruct (C2 ltac:(cbv; discriminate)) as (C2a & _).
  rewrite C2a by reflexivity.
  destruct D2 as (_ & D2); try (cbv; discriminate).
  destruct (D2 ltac:(cbv; discriminate)) as (_ & D2b).
  rewrite D2b by (cbv; discriminate).
  repeat split.
Defined.

(** ** The match: Running, then Ended *)

Lemma verdict_health (p e p' e' : Sprite.t) :
  Sprite.health p' = Sprite.health p -> Sprite.health e' = Sprite.health e ->
  verdict p' e' = verdict p e.
Proof. unfold verdict. intros -> ->. reflexivity. Qed.

Lemma verdict_cases (p e : Sprite.t) :
  verdict p e = "Tie"%string \/ verdict p e = "Player 1 Wins"%string \/
  verdict p e = "Enemy Wins"%string.
Proof. unfold verdict. repeat case_if; auto. Qed.

Lemma quiet_refl (g : Game.t) : quiet g g.
Proof. unfold quiet. repeat split; auto. Qed.

Lemma quiet_trans (g1 g2 g3 : Game.t) :
  quiet g1 g2 -> quiet g2 g3 -> quiet g1 g3.
Proof.
  unfold quiet.
  intros (A1 & A2 & A3 & A4 & A5 & A6 & A7 & A8)
         (B1 & B2 & B3 & B4 & B5 & B6 & B7 & B8).
  repeat split; try congruence. auto.
Qed.

Lemma quiet_matchInv (g g' : Game.t) : matchInv g -> quiet g g' -> matchInv g'.
Proof.
  intros (R & E & T) (Q1 & Q2 & Q3 & Q4 & Q5 & Q6 & Q7 & Q8).
  unfold matchInv.
  rewrite Q1, Q2, Q3, Q4, Q5, Q6, Q7, (verdict_health _ _ _ _ Q4 Q5).
  split; [exact R|]. split.
  - intro H. destruct (E H) as (E1 & E2 & E3). split; [exact E1|].
    split; [exact E2|]. intros t Ht C. apply (E3 t); auto.
  - intros t Ht C. apply T; auto.
Qed.

Lemma in_dropTimer (i : nat) (l : list Timer.t) (t : Timer.t) :
  In t (dropTimer i l) -> In t l /\ Timer.id t <> i.
Proof.
  unfold dropTimer. rewrite filter_In. intros (H & N). split; [exact H|].
  apply negb_true_iff, Nat.eqb_neq in N. exact N.
Qed.

Lemma earliest_In (l : list Timer.t) (t : Timer.t) :
  earliest l = Some t -> In t l.
Proof.
  revert t. induction l as [|u l IH]; intros t; cbn; [discriminate|].
  destruct (earliest l) as [v|].
  - destruct (Timer.due v <? Timer.due u)%N; intros [= <-].
    + right. apply IH. reflexivity.
    + left. reflexivity.
  - intros [= <-]. left. reflexivity.
Qed.

(** *** What each part of a frame and each input leaves alone *)

Lemma attack_pending (this : Who) (g : Game.t) :
  Game.pending (attack this g)
    = Game.pending g
      ++ [Timer.mk (Game.nextId g) (Game.now g + 100)%N (CbResetAttack this)].
Proof. destruct this; reflexivity. Qed.

Lemma attack_quiet (this : Who) (g : Game.t) : quiet g (attack this g).
Proof.
  unfold quiet. rewrite attack_pending.
  destruct this; cbn; repeat split; auto;
    intros t Ht C; apply in_app_or in Ht; destruct Ht as [Ht|[<-|[]]];
    auto; discriminate.
Qed.

Lemma update_keeps_combat (s : Sprite.t) :
  Sprite.health (Sprite.update s) = Sprite.health s /\
  Sprite.isDead (Sprite.update s) = Sprite.isDead s /\
  Sprite.isAttacking (Sprite.update s) = Sprite.isAttacking s.
Proof.
  unfold Sprite.update, Sprite.screenBoundaries, Sprite.applyGravity.
  repeat (case_if; cbn); repeat split; assumption.
Qed.

Lemma updateEntities_quiet (g : Game.t) : quiet g (updateEntities g).
Proof.
  unfold quiet, published, updateEntities. cbn.
  pose proof (update_keeps_combat (Game.player g)) as (A & B & _).
  pose proof (update_keeps_combat (Game.enemy g)) as (C & D & _).
  repeat split; auto.
Qed.

Lemma playerMovement_quiet (g : Game.t) : quiet g (playerMovement g).
Proof. unfold playerMovement. quiet_by_cases. Qed.

Lemma updateEnemyAI_quiet (random : Q) (g : Game.t) :
  quiet g (updateEnemyAI random g).
Proof.
  unfold updateEnemyAI.
  repeat case_if;
    try (eapply quiet_trans; [|apply attack_quiet]);
    unfold quiet, published; cbn; repeat split; auto.
Qed.

Lemma beforeCollisions_quiet (random : Q) (g : Game.t) :
  quiet g (beforeCollisions random g).
Proof.
  unfold beforeCollisions.
  eapply quiet_trans; [apply updateEntities_quiet|].
  eapply quiet_trans; [apply playerMovement_quiet|].
  apply updateEnemyAI_quiet.
Qed.

Lemma keydown_quiet (key : string) (g : Game.t) : quiet g (keydown key g).
Proof.
  unfold keydown.
  repeat case_if; try apply attack_quiet; try apply quiet_refl;
    unfold quiet, published; cbn; repeat split; auto.
Qed.

Lemma keyup_quiet (key : string) (g : Game.t) : quiet g (keyup key g).
Proof. unfold keyup. quiet_by_cases. Qed.

(** *** The two collision tests and the end game check *)

Lemma takeHit_alive (d : Q) (s : Sprite.t) :
  Sprite.isDead s = false -> 0 < Sprite.health (Sprite.takeHit d s) ->
  Sprite.isDead (Sprite.takeHit d s) = false.
Proof.
  unfold Sprite.takeHit. cbn. case_if; cbn; intros D H.
  - lra.
  - exact D.
Qed.

Lemma playerHitsEnemy_ended (g : Game.t) :
  Game.gameRunning g = false -> playerHitsEnemy g = g.
Proof.
  intro R. unfold playerHitsEnemy. rewrite R, andb_false_r. reflexivity.
Qed.

Lemma enemyHitsPlayer_ended (g : Game.t) :
  Game.gameRunning g = false -> enemyHitsPlayer g = g.
Proof.
  intro R. unfold enemyHitsPlayer. rewrite R, andb_false_r. reflexivity.
Qed.

Lemma playerHitsEnemy_effect (g : Game.t) :
  let g' := playerHitsEnemy g in
  Game.gameRunning g' = Game.gameRunning g /\
  published g' = published g /\
  Game.timerId g' = Game.timerId g /\
  Game.pending g' = Game.pending g /\
  Sprite.health (Game.player g') = Sprite.health (Game.player g) /\
  Sprite.isDead (Game.player g') = Sprite.isDead (Game.player g) /\
  (Sprite.isDead (Game.enemy g) = false ->
   0 < Sprite.health (Game.enemy g') ->
   Sprite.isDead (Game.enemy g') = false).
Proof.
  unfold playerHitsEnemy, published.
  repeat (case_if; cbn); repeat split; auto.
  apply takeHit_alive.
Qed.

Lemma enemyHitsPlayer_effect (g : Game.t) :
  let g' := enemyHitsPlayer g in
  Game.gameRunning g' = Game.gameRunning g /\
  published g' = published g /\
  Game.timerId g' = Game.timerId g /\
  Game.pending g' = Game.pending g /\
  Sprite.health (Game.enemy g') = Sprite.health (Game.enemy g) /\
  Sprite.isDead (Game.enemy g') = Sprite.isDead (Game.enemy g) /\
  (Sprite.isDead (Game.player g) = false ->
   0 < Sprite.health (Game.player g') ->
   Sprite.isDead (Game.player g') = false).
Proof.
  unfold enemyHitsPlayer, published.
  repeat (case_if; cbn); repeat split; auto.
  apply takeHit_alive.
Qed.

Lemma determineWinner_effect (p e : Sprite.t) (i : option nat) (g : Game.t) :
  let g' := determineWinner p e i g in
  Game.gameRunning g' = false /\
  published g' = verdict p e :: published g /\
  Game.player g' = Game.player g /\
  Game.enemy g' = Game.enemy g /\
  Game.timerId g' = Game.timerId g /\
  (forall t, In t (Game.pending g') ->
             In t (Game.pending g) /\ i <> Some (Timer.id t)).
Proof.
  unfold determineWinner, published, clearTimeout.
  destruct i as [n|]; cbn; repeat split; auto; try discriminate.
  - apply in_dropTimer in H. tauto.
  - apply in_dropTimer in H. intros [= ->]. tauto.
Qed.

Lemma endGameCheck_cases (g : Game.t) :
  ((Sprite.health (Game.enemy g) <= 0 \/ Sprite.health (Game.player g) <= 0) /\
   endGameCheck g
     = determineWinner (Game.player g) (Game.enemy g) (Game.timerId g) g) \/
  (0 < Sprite.health (Game.enemy g) /\ 0 < Sprite.health (Game.player g) /\
   endGameCheck g = g).
Proof.
  unfold endGameCheck.
  destruct (Sprite.health (Game.enemy g) <=? 0) eqn:A;
    destruct (Sprite.health (Game.player g) <=? 0) eqn:B; cbn;
    try apply js_le_iff in A; try apply js_le_iff in B;
    try apply js_le_false_iff in A; try apply js_le_false_iff in B; auto.
Qed.

(** After [determineWinner] with the current [timerId], no [decreaseTimer]
    entry is left in the queue. *)
Lemma determineWinner_noCountdown (g : Game.t) :
  (forall t, In t (Game.pending g) -> Timer.callback t = CbDecreaseTimer ->
             Game.timerId g = Some (Timer.id t)) ->
  noCountdown
    (Game.pending
       (determineWinner (Game.player g) (Game.enemy g) (Game.timerId g) g)).
Proof.
  intros T t Ht C.
  apply (determineWinner_effect (Game.player g) (Game.enemy g)
           (Game.timerId g) g) in Ht.
  destruct Ht as (Ht & N). apply N, T; assumption.
Qed.

(** *** One frame *)

Lemma animate_effect (random : Q) (g : Game.t) :
  matchInv g ->
  let g' := animate random g in
  matchInv g' /\
  (Game.gameRunning g = false ->
     Game.gameRunning g' = false /\
     Sprite.health (Game.player g') = Sprite.health (Game.player g) /\
     Sprite.health (Game.enemy g') = Sprite.health (Game.enemy g) /\
     published g'
       = if republishes (Frame random) g
         then verdict (Game.player g) (Game.enemy g) :: published g
         else published g) /\
  (Game.gameRunning g = true ->
     (Game.gameRunning g' = true /\ published g' = published g) \/
     (Game.gameRunning g' = false /\
      published g' = [verdict (Game.player g') (Game.enemy g')] /\
      (Sprite.health (Game.enemy g') <= 0 \/
       Sprite.health (Game.player g') <= 0))).
Proof.
  intros I g'. subst g'. unfold animate.
  pose proof (beforeCollisions_quiet random g) as Q.
  pose proof (quiet_matchInv _ _ I Q) as I1.
  set (g1 := beforeCollisions random g) in *.
  destruct Q as (Q1 & Q2 & Q3 & Q4 & Q5 & Q6 & Q7 & Q8).
  destruct (Game.gameRunning g) eqn:R.
  - (* running *)
    destruct I1 as (R1 & _ & T1). destruct (R1 Q1) as (P0 & _ & _ & Dp & De).
    pose proof (playerHitsEnemy_effect g1) as (A1 & A2 & A3 & A4 & A5 & A6 & A7).
    set (g2 := playerHitsEnemy g1) in *.
    pose proof (enemyHitsPlayer_effect g2) as (B1 & B2 & B3 & B4 & B5 & B6 & B7).
    set (g3 := enemyHitsPlayer g2) in *.
    assert (R3 : Game.gameRunning g3 = true) by congruence.
    assert (P3 : published g3 = []) by congruence.
    assert (T3 : forall t, In t (Game.pending g3) ->
                 Timer.callback t = CbDecreaseTimer ->
                 Game.timerId g3 = Some (Timer.id t)).
    { rewrite B4, A4, B3, A3. exact T1. }
    destruct (endGameCheck_cases g3) as [(Z & ->)|(He & Hp & ->)].
    + pose proof (determineWinner_effect (Game.player g3) (Game.enemy g3)
                    (Game.timerId g3) g3) as (D1 & D2 & D3 & D4 & D5 & D6).
      pose proof (determineWinner_noCountdown g3 T3) as NC.
      set (g4 := determineWinner _ _ _ g3) in *.
      assert (P4 : published g4 = [verdict (Game.player g4) (Game.enemy g4)]).
      { rewrite D2, P3, D3, D4. reflexivity. }
      split; [|split; [discriminate|]].
      * split; [congruence|]. split.
        -- intros _. split; [exists 0%nat; exact P4|]. split; [intros; exact P4|].
           exact NC.
        -- intros t Ht C. destruct (NC t Ht C).
      * intros _. right. split; [exact D1|]. split; [exact P4|].
        rewrite D3, D4. exact Z.
    + split; [|split; [discriminate|]].
      * split; [|split; [congruence|exact T3]].
        intros _. split; [exact P3|]. split; [exact Hp|]. split; [exact He|].
        split.
        -- apply B7; [congruence|exact Hp].
        -- rewrite B6. apply A7; [exact De|]. rewrite <- B5. exact He.
      * intros _. left. split; [exact R3|]. congruence.
  - (* ended *)
    rewrite (playerHitsEnemy_ended g1 Q1), (enemyHitsPlayer_ended g1 Q1).
    destruct I1 as (_ & E1 & T1).
    destruct (E1 Q1) as ((n & Pn) & Ptimer & NC1).
    unfold republishes.
    destruct (endGameCheck_cases g1) as [(Z & ->)|(He & Hp & ->)].
    + pose proof (determineWinner_effect (Game.player g1) (Game.enemy g1)
                    (Game.timerId g1) g1) as (D1 & D2 & D3 & D4 & D5 & D6).
      pose proof (determineWinner_noCountdown g1 T1) as NC.
      set (g4 := determineWinner _ _ _ g1) in *.
      assert (C : (Sprite.health (Game.enemy g) <=? 0)
                  || (Sprite.health (Game.player g) <=? 0) = true).
      { rewrite <- Q4, <- Q5. apply orb_true_iff.
        destruct Z as [Z|Z]; [left|right]; apply js_le_iff; exact Z. }
      split; [|split; [|discriminate]].
      * split; [congruence|]. split.
        -- intros _. split.
           ++ exists (S n). rewrite D2, D3, D4, Pn. reflexivity.
           ++ split; [|exact NC]. rewrite D3, D4. intros; lra.
        -- intros t Ht X. destruct (NC t Ht X).
      * intros _. rewrite C, D3, D4, D2, Q2.
        rewrite (verdict_health _ _ _ _ Q4 Q5). auto.
    + assert (C : (Sprite.health (Game.enemy g) <=? 0)
                  || (Sprite.health (Game.player g) <=? 0) = false).
      { rewrite <- Q4, <- Q5. apply orb_false_iff.
        split; apply js_le_false_iff; assumption. }
      split; [|split; [|discriminate]].
      * split; [congruence|]. split; [|exact T1].
        intros _. split; [exists n; exact Pn|]. split; assumption.
      * intros _. rewrite C. auto.
Qed.

(** *** One timer callback *)

Lemma dropTimer_quiet (i : nat) (g : Game.t) :
  quiet g (Game.set_pending (dropTimer i (Game.pending g)) g).
Proof.
  unfold quiet, published. cbn. repeat split; auto.
  intros t Ht _. apply in_dropTimer in Ht. tauto.
Qed.

Lemma resetAttack_quiet (this : Who) (g : Game.t) :
  quiet g (Game.set_sprite this (Sprite.resetAttack (Game.sprite this g)) g).
Proof. destruct this; unfold quiet, published; cbn; repeat split; auto. Qed.

(** The second half of [decreaseTimer] (lines 193-195), on a running match
    whose only possible [decreaseTimer] entry is the one [timerId] names. *)
Lemma timer_expiry (g : Game.t) :
  matchInv g -> Game.gameRunning g = true ->
  let g' :=
    if (Game.timer g =? 0)%Z
    then determineWinner (Game.player g) (Game.enemy g) (Game.timerId g) g
    else g in
  matchInv g' /\ Game.player g' = Game.player g /\
  Game.enemy g' = Game.enemy g /\
  ((Game.gameRunning g' = true /\ published g' = published g) \/
   (Game.gameRunning g' = false /\
    published g' = [verdict (Game.player g') (Game.enemy g')])).
Proof.
  intros I R. destruct (Game.timer g =? 0)%Z; cbn zeta.
  - destruct I as (R1 & _ & T). destruct (R1 R) as (P0 & _).
    pose proof (determineWinner_effect (Game.player g) (Game.enemy g)
                  (Game.timerId g) g) as (D1 & D2 & D3 & D4 & D5 & D6).
    pose proof (determineWinner_noCountdown g T) as NC.
    set (g4 := determineWinner _ _ _ g) in *.
    assert (P4 : published g4 = [verdict (Game.player g4) (Game.enemy g4)]).
    { rewrite D2, P0, D3, D4. reflexivity. }
    split; [|split; [exact D3|split; [exact D4|right; split; assumption]]].
    split; [congruence|]. split.
    + intros _. split; [exists 0%nat; exact P4|]. split; [intros; exact P4|].
      exact NC.
    + intros t Ht C. destruct (NC t Ht C).
  - split; [exact I|]. split; [reflexivity|]. split; [reflexivity|].
    left. split; [exact R|reflexivity].
Qed.

Lemma decreaseTimer_effect (g : Game.t) :
  matchInv g -> Game.gameRunning g = true -> noCountdown (Game.pending g) ->
  let g' := decreaseTimer g in
  matchInv g' /\ Game.player g' = Game.player g /\
  Game.enemy g' = Game.enemy g /\
  ((Game.gameRunning g' = true /\ published g' = published g) \/
   (Game.gameRunning g' = false /\
    published g' = [verdict (Game.player g') (Game.enemy g')])).
Proof.
  intros I R NC. unfold decreaseTimer.
  destruct (Game.timer g >? 0)%Z.
  - cbn [setTimeout].
    set (g1 := Game.set_dom _ _).
    assert (I1 : matchInv g1).
    { destruct I as (R1 & E1 & T1). split; [exact R1|]. split.
      - intro H. change (Game.gameRunning g1) with (Game.gameRunning g) in H.
        congruence.
      - intros t Ht C.
        change (Game.pending g1)
          with (Game.pending g
                ++ [Timer.mk (Game.nextId g) (Game.now g + 1000)%N
                      CbDecreaseTimer]) in Ht.
        apply in_app_or in Ht. destruct Ht as [Ht|[<-|[]]].
        + destruct (NC t Ht C).
        + reflexivity. }
    destruct (timer_expiry g1 I1 R) as (A & B & C & D).
    split; [exact A|]. split; [exact B|]. split; [exact C|exact D].
  - apply timer_expiry; assumption.
Qed.

Lemma fire_effect (g g' : Game.t) :
  matchInv g -> step Fire g = Some g' ->
  matchInv g' /\
  Sprite.health (Game.player g') = Sprite.health (Game.player g) /\
  Sprite.health (Game.enemy g') = Sprite.health (Game.enemy g) /\
  (Game.gameRunning g = false ->
     Game.gameRunning g' = false /\ published g' = published g) /\
  (Game.gameRunning g = true ->
     (Game.gameRunning g' = true /\ published g' = published g) \/
     (Game.gameRunning g' = false /\
      published g' = [verdict (Game.player g') (Game.enemy g')] /\
      0 < Sprite.health (Game.player g') /\
      0 < Sprite.health (Game.enemy g'))).
Proof.
  intros I. cbn [step].
  destruct (earliest (Game.pending g)) as [t|] eqn:Et; [|discriminate].
  destruct (Timer.due t <=? Game.now g)%N; [|discriminate].
  intros [= <-]. apply earliest_In in Et.
  pose proof (dropTimer_quiet (Timer.id t) g) as Q.
  pose proof (quiet_matchInv _ _ I Q) as I1.
  set (g1 := Game.set_pending _ g) in *.
  destruct (Timer.callback t) as [|this] eqn:C; cbn [runCallback].
  - (* the countdown *)
    destruct (Game.gameRunning g) eqn:R.
    + assert (NC : noCountdown (Game.pending g1)).
      { intros u Hu Cu. apply in_dropTimer in Hu. destruct Hu as (Hu & N).
        destruct I as (_ & _ & T).
        pose proof (T t Et C) as X. pose proof (T u Hu Cu) as Y. congruence. }
      destruct (decreaseTimer_effect g1 I1 R NC) as (A & B & B' & D).
      split; [exact A|]. rewrite B, B'. split; [reflexivity|].
      split; [reflexivity|]. split; [discriminate|]. intros _.
      destruct D as [D|(D1 & D2)]; [left; exact D|right].
      split; [exact D1|]. split; [rewrite D2, B, B'; reflexivity|].
      destruct I as (R1 & _). destruct (R1 R) as (_ & Hp & He & _).
      split; [exact Hp|exact He].
    + destruct I as (_ & E & _). destruct (E R) as (_ & _ & NC).
      destruct (NC t Et C).
  - (* the reset of an attack *)
    pose proof (resetAttack_quiet this g1) as Q2.
    pose proof (quiet_trans _ _ _ Q Q2) as Q3.
    split; [exact (quiet_matchInv _ _ I Q3)|].
    destruct Q3 as (Q31 & Q32 & _ & Q34 & Q35 & _).
    split; [exact Q34|]. split; [exact Q35|].
    split; intro R; [|left]; split; congruence.
Qed.

(** *** Every execution *)

Lemma some_eq {A : Type} (a b : A) : Some a = Some b -> a = b.
Proof. congruence. Qed.

Lemma advance_quiet (dt : N) (g : Game.t) :
  quiet g (Game.set_now (Game.now g + dt)%N g).
Proof. unfold quiet, published. cbn. repeat split; auto. Qed.

Lemma boot_matchInv : matchInv boot.
Proof.
  split; [|split].
  - intros _. cbv. repeat split; discriminate.
  - discriminate.
  - intros t [<-|[]] _. reflexivity.
Qed.

Lemma step_matchInv (ev : Event) (g g' : Game.t) :
  matchInv g -> step ev g = Some g' -> matchInv g'.
Proof.
  intros I. destruct ev as [r|k|k|dt|]; cbn [step].
  - intro S. apply some_eq in S. subst g'. apply (animate_effect r g I).
  - intro S. apply some_eq in S. subst g'.
    apply (quiet_matchInv _ _ I), keydown_quiet.
  - intro S. apply some_eq in S. subst g'.
    apply (quiet_matchInv _ _ I), keyup_quiet.
  - intro S. apply some_eq in S. subst g'.
    apply (quiet_matchInv _ _ I), advance_quiet.
  - intro S. apply (fire_effect g g' I S).
Qed.

Lemma run_matchInv (evs : list Event) :
  forall g g', matchInv g -> run evs g = Some g' -> matchInv g'.
Proof.
  induction evs as [|ev evs IH]; intros g g' I; cbn.
  - intros [= <-]. exact I.
  - destruct (step ev g) as [g1|] eqn:S; [|discriminate].
    apply IH. apply (step_matchInv ev g g1 I S).
Qed.

(** *** Publication of the result *)

(** C1, as stated, fails when the match ends by health depletion: the end
    game check of [animate] (lines 302-304) is not guarded by [gameRunning],
    so the frame after the knockout runs [determineWinner] again and the
    message is published a second time. *)
Lemma result_published_once_refuted :
  option_map (fun g => (Game.gameRunning g, published g)) (run knockout boot)
    = Some (false, ["Player 1 Wins"%string]) /\
  option_map (fun g => (Game.gameRunning g, published g))
    (run (knockout ++ [Advance 20; Frame 0.5]) boot)
    = Some (false, ["Player 1 Wins"%string; "Player 1 Wins"%string]).
Proof. split; vm_compute; reflexivity. Qed.

(** C1, amended.  In every execution: nothing is published while the match
    is Running; the step that takes the match from Running to Ended
    publishes the result message once (one of the three messages), and the
    match never returns to Running.  If the match ended by the timer (both
    healths still positive), nothing is published again.  If it ended by a
    health reaching 0, every later frame runs the terminal evaluation again
    and publishes the same message again; the healths and the message never
    change after the end. *)
Theorem result_publication (evs : list Event) (g : Game.t) :
  run evs boot = Some g ->
  let message := verdict (Game.player g) (Game.enemy g) in
  (Game.gameRunning g = true -> published g = []) /\
  (Game.gameRunning g = false ->
     (exists n, published g = repeat message (S n)) /\
     In message ["Tie"; "Player 1 Wins"; "Enemy Wins"]%string /\
     (0 < Sprite.health (Game.player g) ->
      0 < Sprite.health (Game.enemy g) -> published g = [message])) /\
  (forall ev g', step ev g = Some g' ->
     (Game.gameRunning g = true -> Game.gameRunning g' = false ->
        published g' = [verdict (Game.player g') (Game.enemy g')] /\
        ((ev = Fire /\ 0 < Sprite.health (Game.player g') /\
          0 < Sprite.health (Game.enemy g')) \/
         (exists random, ev = Frame random /\
            (Sprite.health (Game.enemy g') <= 0 \/
             Sprite.health (Game.player g') <= 0)))) /\
     (Game.gameRunning g = false ->
        Game.gameRunning g' = false /\
        Sprite.health (Game.player g') = Sprite.health (Game.player g) /\
        Sprite.health (Game.enemy g') = Sprite.health (Game.enemy g) /\
        published g'
          = if republishes ev g then message :: published g
            else published g)).
Proof.
  intros Hrun message.
  pose proof (run_matchInv evs boot g boot_matchInv Hrun) as I.
  split; [|split].
  - intro R. destruct I as (R1 & _). apply R1, R.
  - intro R. destruct I as (_ & E & _). destruct (E R) as (E1 & E2 & _).
    split; [exact E1|]. split; [|exact E2].
    subst message. cbn [In].
    destruct (verdict_cases (Game.player g) (Game.enemy g)) as [->|[->| ->]];
      auto.
  - assert (Hq : forall ev g', step ev g = Some g' -> quiet g g' ->
                 republishes ev g = false ->
       (Game.gameRunning g = true -> Game.gameRunning g' = false ->
        published g' = [verdict (Game.player g') (Game.enemy g')] /\
        ((ev = Fire /\ 0 < Sprite.health (Game.player g') /\
          0 < Sprite.health (Game.enemy g')) \/
         (exists random, ev = Frame random /\
            (Sprite.health (Game.enemy g') <= 0 \/
             Sprite.health (Game.player g') <= 0)))) /\
       (Game.gameRunning g = false ->
        Game.gameRunning g' = false /\
        Sprite.health (Game.player g') = Sprite.health (Game.player g) /\
        Sprite.health (Game.enemy g') = Sprite.health (Game.enemy g) /\
        published g'
          = if republishes ev g then message :: published g
            else published g)).
    { intros ev g' _ (Q1 & Q2 & _ & Q4 & Q5 & _) ->. split.
      - intros R R'. congruence.
      - intro R. repeat split; congruence. }
    intros ev g' S. destruct ev as [r|k|k|dt|].
    + cbn [step] in S. apply some_eq in S. subst g'.
      destruct (animate_effect r g I) as (_ & E & R). split.
      * intros Hr Hr'. destruct (R Hr) as [(X & _)|(_ & P & Z)]; [congruence|].
        split; [exact P|]. right. exists r. split; [reflexivity|exact Z].
      * exact E.
    + apply (Hq _ _ S); [|reflexivity].
      cbn [step] in S. apply some_eq in S. subst g'. apply keydown_quiet.
    + apply (Hq _ _ S); [|reflexivity].
      cbn [step] in S. apply some_eq in S. subst g'. apply keyup_quiet.
    + apply (Hq _ _ S); [|reflexivity].
      cbn [step] in S. apply some_eq in S. subst g'. apply advance_quiet.
    + destruct (fire_effect g g' I S) as (_ & Hp & He & E & R). split.
      * intros Hr Hr'.
        destruct (R Hr) as [(X & _)|(_ & P & Z1 & Z2)]; [congruence|].
        split; [exact P|]. left. auto.
      * intro Hr. destruct (E Hr) as (E1 & E2). cbn [republishes]. auto.
Qed.

Lemma result_publication_witness :
  published knockedOut = ["Player 1 Wins"%string] /\
  published (animate 0.5 knockedOut)
    = ["Player 1 Wins"%string; "Player 1 Wins"%string].
Proof.
  assert (Hrun : run knockout boot = Some knockedOut)
    by (vm_compute; reflexivity).
  pose proof (result_publication knockout knockedOut Hrun) as (_ & _ & S).
  destruct (S (Frame 0.5) (animate 0.5 knockedOut) eq_refl) as (_ & S2).
  assert (R : Game.gameRunning knockedOut = false)
    by (vm_compute; reflexivity).
  destruct (S2 R) as (_ & _ & _ & S3).
  split; [vm_compute; reflexivity|].
  rewrite S3. vm_compute. reflexivity.
Defined.

(** The countdown alone: [decreaseTimer] runs 60 times (once at line 344,
    59 times as a callback), the counter reaches 0, the match ends with one
    message, no countdown timer is left, and later frames publish nothing. *)
Example countdown_publishes_once :
  option_map
    (fun g => (Game.timer g, Game.gameRunning g, published g, Game.pending g))
    (run fullTime boot)
    = Some (0%Z, false, ["Tie"%string], []) /\
  option_map published (run (fullTime ++ frames 3) boot)
    = Some ["Tie"%string] /\
  run (fullTime ++ [Fire]) boot = None.
Proof. split; [|split]; vm_compute; reflexivity. Qed.

(** ** Hits *)

Lemma rectangularCollision_combat (d : Q) (b : bool) (a1 a2 : Sprite.t) :
  rectangularCollision (Sprite.takeHit d a1) (Sprite.set_isAttacking b a2)
    = rectangularCollision a1 a2.
Proof. unfold Sprite.takeHit. case_if; reflexivity. Qed.

Lemma endGameCheck_sprites (g : Game.t) :
  Game.player (endGameCheck g) = Game.player g /\
  Game.enemy (endGameCheck g) = Game.enemy g.
Proof.
  destruct (endGameCheck_cases g) as [(_ & ->)|(_ & _ & ->)]; [|auto].
  pose proof (determineWinner_effect (Game.player g) (Game.enemy g)
                (Game.timerId g) g) as (_ & _ & A & B & _).
  auto.
Qed.

Lemma takeHit_less (d : Q) (s : Sprite.t) :
  0 < d -> 0 < Sprite.health s ->
  Sprite.health (Sprite.takeHit d s) < Sprite.health s.
Proof.
  intros Hd Hs. unfold Sprite.takeHit. cbn.
  destruct (Sprite.health s - d <=? 0) eqn:E; cbn; lra.
Qed.

Lemma collisions_mutual (g1 : Game.t) :
  Game.gameRunning g1 = true ->
  Sprite.isDead (Game.player g1) = false ->
  Sprite.isDead (Game.enemy g1) = false ->
  Sprite.isAttacking (Game.player g1) = true ->
  Sprite.isAttacking (Game.enemy g1) = true ->
  rectangularCollision (Game.player g1) (Game.enemy g1) = true ->
  rectangularCollision (Game.enemy g1) (Game.player g1) = true ->
  let g2 := playerHitsEnemy g1 in
  let g3 := enemyHitsPlayer g2 in
  rectangularCollision (Game.enemy g2) (Game.player g2)
  && Sprite.isAttacking (Game.enemy g2) && Game.gameRunning g2 = true /\
  Game.enemy g3 = Sprite.resetAttack (Sprite.takeHit 10 (Game.enemy g1)) /\
  Game.player g3 = Sprite.takeHit 10 (Sprite.resetAttack (Game.player g1)).
Proof.
  intros R Dp De Ap Ae Cpe Cep g2 g3.
  assert (E2 : g2
               = Game.set_dom
                   (Dom.set_enemyHealthBar
                      (Sprite.health (Sprite.takeHit 10 (Game.enemy g1)))
                      (Game.dom g1))
                   (Game.set_enemy (Sprite.takeHit 10 (Game.enemy g1))
                      (Game.set_player
                         (Sprite.set_isAttacking false (Game.player g1)) g1))).
  { subst g2. unfold playerHitsEnemy. rewrite Cpe, Ap, R. cbn. rewrite De.
    reflexivity. }
  assert (H2 : rectangularCollision (Game.enemy g2) (Game.player g2)
               && Sprite.isAttacking (Game.enemy g2) && Game.gameRunning g2
               = true).
  { rewrite E2. cbn. rewrite rectangularCollision_combat, Cep, R.
    unfold Sprite.takeHit. case_if; cbn; rewrite Ae; reflexivity. }
  split; [exact H2|].
  subst g3. unfold enemyHitsPlayer. rewrite H2. rewrite E2. cbn. rewrite Dp.
  cbn. split; reflexivity.
Qed.

(** C4. In every execution, take a frame of the running match in which,
    when the collision tests are made, both sprites are attacking and each
    attack box overlaps the other's body.  Both tests succeed in that same
    frame: each side gets [takeHit(10)] and loses health, and each attack
    flag is cleared.  The second test is made on the state the first one
    leaves, and neither the cleared flag of the player nor the damage (even
    the death) of the enemy suppresses the enemy's hit. *)
Theorem mutual_hit (evs : list Event) (g : Game.t) (random : Q) :
  run evs boot = Some g ->
  let g1 := beforeCollisions random g in
  Game.gameRunning g1 = true ->
  Sprite.isAttacking (Game.player g1) = true ->
  Sprite.isAttacking (Game.enemy g1) = true ->
  rectangularCollision (Game.player g1) (Game.enemy g1) = true ->
  rectangularCollision (Game.enemy g1) (Game.player g1) = true ->
  let g' := animate random g in
  Game.enemy g' = Sprite.resetAttack (Sprite.takeHit 10 (Game.enemy g1)) /\
  Game.player g' = Sprite.takeHit 10 (Sprite.resetAttack (Game.player g1)) /\
  Sprite.health (Game.enemy g') < Sprite.health (Game.enemy g1) /\
  Sprite.health (Game.player g') < Sprite.health (Game.player g1) /\
  confirmedHit Player random g = true /\
  confirmedHit Enemy random g = true.
Proof.
  intros Hrun g1 R Ap Ae Cpe Cep g'.
  assert (Eg' : g' = endGameCheck (enemyHitsPlayer (playerHitsEnemy g1)))
    by reflexivity.
  assert (Hp1 : confirmedHit Player random g
                = rectangularCollision (Game.player g1) (Game.enemy g1)
                  && Sprite.isAttacking (Game.player g1)
                  && Game.gameRunning g1) by reflexivity.
  assert (He1 : confirmedHit Enemy random g
                = rectangularCollision (Game.enemy (playerHitsEnemy g1))
                    (Game.player (playerHitsEnemy g1))
                  && Sprite.isAttacking (Game.enemy (playerHitsEnemy g1))
                  && Game.gameRunning (playerHitsEnemy g1)) by reflexivity.
  pose proof (run_matchInv evs boot g boot_matchInv Hrun) as I.
  pose proof (quiet_matchInv _ _ I (beforeCollisions_quiet random g)) as I1.
  fold g1 in I1. clearbody g' g1.
  destruct I1 as (R1 & _). destruct (R1 R) as (_ & Hp & He & Dp & De).
  destruct (collisions_mutual g1 R Dp De Ap Ae Cpe Cep) as (H2 & E3e & E3p).
  destruct (endGameCheck_sprites (enemyHitsPlayer (playerHitsEnemy g1)))
    as (Sp & Se).
  rewrite Hp1, He1, Eg', Sp, Se, E3e, E3p.
  split; [reflexivity|]. split; [reflexivity|].
  split; [|split; [|split]].
  - apply (takeHit_less 10 (Game.enemy g1)); [reflexivity|exact He].
  - apply (takeHit_less 10 (Sprite.resetAttack (Game.player g1)));
      [reflexivity|exact Hp].
  - rewrite Cpe, Ap, R. reflexivity.
  - exact H2.
Qed.

Lemma mutual_hit_witness :
  Sprite.health (Game.enemy (animate 0.01 duelState)) == 90 /\
  Sprite.health (Game.player (animate 0.01 duelState)) == 90.
Proof.
  assert (Hrun : run duel boot = Some duelState) by (vm_compute; reflexivity).
  destruct (mutual_hit duel duelState 0.01 Hrun) as (E & P & _);
    try (vm_compute; reflexivity).
  rewrite E, P. split; vm_compute; reflexivity.
Defined.

(** ** The attack window *)

Lemma beforeCollisions_isAttacking (random : Q) (g : Game.t) :
  Sprite.isAttacking (Game.player (beforeCollisions random g))
    = Sprite.isAttacking (Game.player g) /\
  (Sprite.isAttacking (Game.enemy g) = true ->
   Sprite.isAttacking (Game.enemy (beforeCollisions random g)) = true).
Proof.
  unfold beforeCollisions, updateEnemyAI, playerMovement, updateEntities.
  pose proof (update_keeps_combat (Game.player g)) as (_ & _ & A).
  pose proof (update_keeps_combat (Game.enemy g)) as (_ & _ & B).
  repeat (case_if; cbn); rewrite ?A, ?B; split; auto.
Qed.

Lemma decreaseTimer_sprites (g : Game.t) :
  Game.player (decreaseTimer g) = Game.player g /\
  Game.enemy (decreaseTimer g) = Game.enemy g.
Proof.
  unfold decreaseTimer, determineWinner, clearTimeout, setTimeout.
  repeat (case_if; cbn); try destruct (Game.timerId g); cbn; auto.
Qed.

Lemma keydown_isAttacking (this : Who) (key : string) (g : Game.t) :
  Sprite.isAttacking (Game.sprite this g) = true ->
  Sprite.isAttacking (Game.sprite this (keydown key g)) = true.
Proof.
  unfold keydown, attack. destruct this; repeat (case_if; cbn); auto.
Qed.

(** C5, as stated, fails on its last-wins part.  The space bar is pressed
    at 0 ms and again at 50 ms ([secondPress]); no hit is possible, the
    fighters are 700 apart.  At 100 ms the reset scheduled by the first
    press is the earliest timer and is due; it fires and clears
    [isAttacking], 50 ms after the most recent call, while the reset of the
    second press, due at 150 ms, is still in the queue. *)
Lemma attack_window_last_wins_refuted :
  option_map
    (fun g => (Game.now g, Sprite.isAttacking (Game.player g),
               map Timer.due (Game.pending g)))
    (run secondPress boot)
    = Some (50%N, true, [1000; 100; 150]%N) /\
  option_map
    (fun g => (Game.now g, Sprite.isAttacking (Game.player g),
               map Timer.due (Game.pending g),
               Sprite.health (Game.enemy g)))
    (run (secondPress ++ firstResetDue ++ [Fire]) boot)
    = Some (100%N, false, [1000; 150]%N, 100).
Proof. split; vm_compute; reflexivity. Qed.

(** C5, amended.  [attack()] sets [isAttacking] and schedules a reset with
    a delay of 100 ms; it cancels nothing, so a call made while already
    attacking leaves the earlier reset in the queue and adds one more.
    Every reset clears the flag when it fires, whichever call scheduled it,
    and the flag is cleared by nothing else than the earliest timer being a
    due reset of that sprite, or a confirmed hit in a frame.  Hence the flag
    stays set until the earliest pending reset fires, not until 100 ms after
    the most recent call. *)
Theorem attack_window (this : Who) (g : Game.t) :
  Sprite.isAttacking (Game.sprite this (attack this g)) = true /\
  Game.pending (attack this g)
    = Game.pending g
      ++ [Timer.mk (Game.nextId g) (Game.now g + 100)%N (CbResetAttack this)] /\
  (forall ev g',
     step ev g = Some g' ->
     Sprite.isAttacking (Game.sprite this g) = true ->
     Sprite.isAttacking (Game.sprite this g') = false ->
     (ev = Fire /\
      exists t, earliest (Game.pending g) = Some t /\
                Timer.callback t = CbResetAttack this /\
                (Timer.due t <= Game.now g)%N) \/
     (exists random, ev = Frame random /\
                     confirmedHit this random g = true)) /\
  (forall t g',
     earliest (Game.pending g) = Some t ->
     Timer.callback t = CbResetAttack this ->
     step Fire g = Some g' ->
     Sprite.isAttacking (Game.sprite this g') = false).
Proof.
  split; [destruct this; reflexivity|].
  split; [apply attack_pending|].
  split.
  - intros ev g' S On Off. destruct ev as [r|k|k|dt|]; cbn [step] in S.
    + (* a frame *)
      apply some_eq in S. right. exists r. split; [reflexivity|].
      assert (Eg' : g' = endGameCheck
                           (enemyHitsPlayer
                              (playerHitsEnemy (beforeCollisions r g))))
        by (subst g'; reflexivity).
      assert (Hp1 : confirmedHit Player r g
                = rectangularCollision (Game.player (beforeCollisions r g))
                    (Game.enemy (beforeCollisions r g))
                  && Sprite.isAttacking (Game.player (beforeCollisions r g))
                  && Game.gameRunning (beforeCollisions r g)) by reflexivity.
      assert (He1 : confirmedHit Enemy r g
                = rectangularCollision
                    (Game.enemy (playerHitsEnemy (beforeCollisions r g)))
                    (Game.player (playerHitsEnemy (beforeCollisions r g)))
                  && Sprite.isAttacking
                       (Game.enemy (playerHitsEnemy (beforeCollisions r g)))
                  && Game.gameRunning (playerHitsEnemy (beforeCollisions r g)))
        by reflexivity.
      destruct (beforeCollisions_isAttacking r g) as (Bp & Be).
      clear S. revert Eg' Hp1 He1 Bp Be.
      generalize (beforeCollisions r g) as g1. intros g1 Eg' Hp1 He1 Bp Be.
      destruct (endGameCheck_sprites (enemyHitsPlayer (playerHitsEnemy g1)))
        as (Sp & Se).
      destruct this; cbn [Game.sprite] in *.
      * rewrite Hp1. rewrite Eg', Sp in Off. rewrite <- Bp in On.
        revert Off. unfold enemyHitsPlayer, playerHitsEnemy.
        destruct (rectangularCollision (Game.player g1) (Game.enemy g1)
                  && Sprite.isAttacking (Game.player g1)
                  && Game.gameRunning g1); [reflexivity|].
        unfold Sprite.takeHit. repeat (case_if; cbn); congruence.
      * rewrite He1. rewrite Eg', Se in Off. specialize (Be On).
        assert (X : Sprite.isAttacking (Game.enemy (playerHitsEnemy g1))
                    = true).
        { revert Be. unfold playerHitsEnemy, Sprite.takeHit.
          repeat (case_if; cbn); auto. }
        revert Off X. generalize (playerHitsEnemy g1) as g2. intros g2.
        unfold enemyHitsPlayer.
        destruct (rectangularCollision (Game.enemy g2) (Game.player g2)
                  && Sprite.isAttacking (Game.enemy g2)
                  && Game.gameRunning g2); [reflexivity|].
        congruence.
    + apply some_eq in S. subst g'.
      rewrite (keydown_isAttacking this k g On) in Off. discriminate.
    + apply some_eq in S. subst g'. exfalso.
      destruct this; cbn [Game.sprite] in *; revert Off; unfold keyup;
        repeat (case_if; cbn); congruence.
    + apply some_eq in S. subst g'. exfalso.
      destruct this; cbn in *; congruence.
    + left. split; [reflexivity|].
      destruct (earliest (Game.pending g)) as [t|]; [|discriminate].
      destruct (Timer.due t <=? Game.now g)%N eqn:Due; [|discriminate].
      apply some_eq in S. exists t. split; [reflexivity|].
      apply N.leb_le in Due. split; [|exact Due].
      destruct (Timer.callback t) as [|that]; cbn [runCallback] in S.
      * exfalso. subst g'.
        destruct (decreaseTimer_sprites
                    (Game.set_pending
                       (dropTimer (Timer.id t) (Game.pending g)) g))
          as (A & B).
        destruct this; cbn [Game.sprite] in *; rewrite ?A, ?B in Off;
          cbn in Off; congruence.
      * destruct this, that; try reflexivity; exfalso; subst g';
          cbn in Off, On; congruence.
  - intros t g' Et C S. cbn [step] in S. rewrite Et in S.
    destruct (Timer.due t <=? Game.now g)%N; [|discriminate].
    apply some_eq in S. subst g'. rewrite C. destruct this; reflexivity.
Qed.

Lemma attack_window_witness :
  Sprite.isAttacking
    (Game.sprite Player (stateAfter (secondPress ++ firstResetDue ++ [Fire])))
    = false.
Proof.
  refine (proj2 (proj2 (proj2
            (attack_window Player (stateAfter (secondPress ++ firstResetDue)))))
            (Timer.mk 1 100 (CbResetAttack Player)) _ _ _ _);
    vm_compute; reflexivity.
Defined.

(** * Further properties of the code *)

(** ** Physics of one sprite *)

Lemma Ieee_applyGravity_horizontal (t : Ieee.Sprite.t) :
  Ieee.Vec.x (Ieee.Sprite.position (Ieee.Sprite.applyGravity t))
    = Ieee.Vec.x (Ieee.Sprite.position t) /\
  Ieee.Sprite.width (Ieee.Sprite.applyGravity t) = Ieee.Sprite.width t.
Proof. unfold Ieee.Sprite.applyGravity. case_if; split; reflexivity. Qed.

(** X1. Screen boundaries (lines 109-111), in double precision.  For a
    sprite that is not dead and has the width 50 of the constructor,
    neither test of lines 110-111 holds of what [update()] leaves: [x < 0]
    is false and [x + width > canvas.width] is false.  The new x is 0 when
    the moved x, [x + velocity.x], is below 0; it is
    [canvas.width - width = 974] when the moved right edge, as line 111
    computes it, is greater than [canvas.width]; and it is the moved x
    otherwise. *)
Theorem update_screen_boundaries (s : Ieee.Sprite.t) :
  Ieee.Sprite.isDead s = false ->
  Ieee.Sprite.width s = 50%float ->
  let moved :=
    (Ieee.Vec.x (Ieee.Sprite.position s)
     + Ieee.Vec.x (Ieee.Sprite.velocity s))%float in
  let x' := Ieee.Vec.x (Ieee.Sprite.position (Ieee.Sprite.update s)) in
  (x' <? 0)%float = false /\
  (Ieee.canvas_width <? x' + Ieee.Sprite.width s)%float = false /\
  ((moved <? 0)%float = true -> x' = 0%float) /\
  ((moved <? 0)%float = false ->
   (Ieee.canvas_width <? moved + Ieee.Sprite.width s)%float = true ->
     x' = (Ieee.canvas_width - Ieee.Sprite.width s)%float /\
     x' = 974%float) /\
  ((moved <? 0)%float = false ->
   (Ieee.canvas_width <? moved + Ieee.Sprite.width s)%float = false ->
     x' = moved).
Proof.
  intros Halive W moved x'. subst x'. unfold Ieee.Sprite.update.
  rewrite Halive.
  set (t := Ieee.Sprite.applyGravity
              (Ieee.Sprite.applyPosition (Ieee.Sprite.alignAttackBox s))).
  assert (Xt : Ieee.Vec.x (Ieee.Sprite.position t) = moved).
  { subst t. rewrite (proj1 (Ieee_applyGravity_horizontal _)). reflexivity. }
  assert (Wt : Ieee.Sprite.width t = 50%float).
  { subst t. rewrite (proj2 (Ieee_applyGravity_horizontal _)). exact W. }
  clearbody t moved. unfold Ieee.Sprite.screenBoundaries.
  rewrite Xt, W.
  destruct (moved <? 0)%float eqn:L;
    cbn [Ieee.Sprite.position Ieee.Sprite.width Ieee.Sprite.set_position
         Ieee.Vec.x]; rewrite Wt.
  - change (Ieee.canvas_width <? 0 + 50)%float with false.
    cbn [Ieee.Sprite.position Ieee.Vec.x].
    repeat split; intros; first [reflexivity | discriminate].
  - rewrite Xt.
    destruct (Ieee.canvas_width <? moved + 50)%float eqn:R;
      cbn [Ieee.Sprite.position Ieee.Sprite.set_position Ieee.Vec.x].
    + repeat split; intros; first [reflexivity | discriminate].
    + rewrite !Xt.
      repeat split; intros; first [assumption | reflexivity | discriminate].
Qed.

(** The fighter walking off the right edge is put back at 974.  The one
    standing at the double just above 974 is left there: its right edge is
    rounded to 1024, so the test of line 111 does not hold, before or
    after. *)
Lemma update_screen_boundaries_witness :
  Ieee.Vec.x (Ieee.Sprite.position (Ieee.Sprite.update walkingOff))
    = 974%float /\
  Ieee.Vec.x (Ieee.Sprite.position (Ieee.Sprite.update pastTheEdge))
    = Ieee.Vec.x (Ieee.Sprite.position pastTheEdge) /\
  (Ieee.canvas_width
     <? Ieee.Vec.x (Ieee.Sprite.position (Ieee.Sprite.update pastTheEdge))
        + 50)%float = false.
Proof.
  split; [|split].
  - exact (proj2 (proj1 (proj2 (proj2 (proj2
             (update_screen_boundaries walkingOff eq_refl eq_refl))))
             eq_refl eq_refl)).
  - exact (proj2 (proj2 (proj2 (proj2
             (update_screen_boundaries pastTheEdge eq_refl eq_refl))))
             eq_refl eq_refl).
  - exact (proj1 (proj2
             (update_screen_boundaries pastTheEdge eq_refl eq_refl))).
Defined.



(** X3. Standing (lines 96-107).  A living sprite that stands on the ground
    with no vertical velocity is left by [update()] on the ground with no
    vertical velocity, and not jumping. *)
Theorem update_standing (s : Sprite.t) :
  Sprite.isDead s = false ->
  Vec.y (Sprite.position s) + Sprite.height s
    == canvas_height - GROUND_HEIGHT ->
  Vec.y (Sprite.velocity s) == 0 ->
  Vec.y (Sprite.position (Sprite.update s))
    = canvas_height - Sprite.height s - GROUND_HEIGHT /\
  Vec.y (Sprite.velocity (Sprite.update s)) = 0 /\
  Sprite.isJumping (Sprite.update s) = Some false.
Proof.
  intros Halive Hy Hv. unfold Sprite.update. rewrite Halive.
  assert (G : Sprite.reachesGround
                (Sprite.applyPosition (Sprite.alignAttackBox s)) = true).
  { unfold Sprite.reachesGround. apply js_ge_iff. cbn. lra. }
  unfold Sprite.applyGravity. rewrite G. unfold Sprite.screenBoundaries.
  repeat (case_if; cbn); repeat split.
Qed.

Lemma update_standing_witness :
  Vec.y (Sprite.position (Sprite.update runningOff)) = 576 - 150 - 96 /\
  Vec.y (Sprite.velocity (Sprite.update runningOff)) = 0 /\
  Sprite.isJumping (Sprite.update runningOff) = Some false.
Proof. apply (update_standing runningOff); reflexivity. Defined.

(** ** Keyboard *)

(** X4. No double jump (lines 323-325).  The jump key acts only on a player
    whose vertical velocity is exactly 0: otherwise [keydown] changes
    nothing, and pressing it twice in a row is the same as pressing it
    once. *)
Theorem jump_only_from_rest (g : Game.t) :
  (~ Vec.y (Sprite.velocity (Game.player g)) == 0 -> keydown "w" g = g) /\
  keydown "w" (keydown "w" g) = keydown "w" g.
Proof.
  unfold keydown. cbn [String.eqb Ascii.eqb Bool.eqb andb]. split.
  - intro N. destruct (negb (Game.gameRunning g)); [reflexivity|].
    destruct (Vec.y (Sprite.velocity (Game.player g)) ===? 0) eqn:E;
      [|reflexivity].
    apply js_eq_iff in E. contradiction.
  - destruct (Game.gameRunning g) eqn:R; cbn [negb]; [|rewrite R; reflexivity].
    destruct (Vec.y (Sprite.velocity (Game.player g)) ===? 0) eqn:E; cbn.
    + rewrite R. reflexivity.
    + rewrite R, E. reflexivity.
Qed.

Lemma jump_only_from_rest_witness :
  keydown "w" (Game.set_player fallingInAir boot)
    = Game.set_player fallingInAir boot.
Proof.
  refine (proj1 (jump_only_from_rest (Game.set_player fallingInAir boot)) _).
  cbv. discriminate.
Defined.

(** X5. Jump (lines 323-325 with lines 96-107).  In a running match, the
    jump key on a living player standing on the ground gives it the vertical
    velocity -15, and the next [update()] lifts it 15 above the ground line
    and leaves it the velocity [-15 + GRAVITY]. *)
Theorem jump_leaves_ground (g : Game.t) :
  Game.gameRunning g = true ->
  Sprite.isDead (Game.player g) = false ->
  Vec.y (Sprite.position (Game.player g)) + Sprite.height (Game.player g)
    == canvas_height - GROUND_HEIGHT ->
  Vec.y (Sprite.velocity (Game.player g)) == 0 ->
  let p := Game.player (keydown "w" g) in
  Vec.y (Sprite.velocity p) = -15 /\
  Vec.y (Sprite.position (Sprite.update p))
    = Vec.y (Sprite.position (Game.player g)) + -15 /\
  Vec.y (Sprite.velocity (Sprite.update p)) = -15 + GRAVITY.
Proof.
  intros R Halive Hy Hv. unfold keydown.
  cbn [String.eqb Ascii.eqb Bool.eqb andb]. rewrite R. cbn [negb].
  apply js_eq_iff in Hv. rewrite Hv. cbn [Game.player Game.set_player].
  split; [reflexivity|].
  unfold Sprite.update. cbn [Sprite.isDead Sprite.set_velocity].
  rewrite Halive.
  assert (G : Sprite.reachesGround
                (Sprite.applyPosition
                   (Sprite.alignAttackBox
                      (Sprite.set_velocity
                         (Vec.mk (Vec.x (Sprite.velocity (Game.player g)))
                            (-15)) (Game.player g)))) = false).
  { unfold Sprite.reachesGround. apply js_ge_false_iff. cbn. lra. }
  unfold Sprite.applyGravity. rewrite G. unfold Sprite.screenBoundaries.
  repeat (case_if; cbn); split; reflexivity.
Qed.

Lemma jump_leaves_ground_witness :
  let p := Game.player (keydown "w" (Game.set_player runningOff boot)) in
  Vec.y (Sprite.velocity p) = -15 /\
  Vec.y (Sprite.position (Sprite.update p)) = 330 + -15 /\
  Vec.y (Sprite.velocity (Sprite.update p)) = -15 + GRAVITY.
Proof.
  apply (jump_leaves_ground (Game.set_player runningOff boot)); reflexivity.
Defined.

(** X6. Both movement keys (lines 263-272 with lines 315-322, 334-339).  In
    a running match with a living player: when [a] is held and [d] is
    pressed after it, the player walks right; when [d] is then released the
    player stands still although [a] is still held, because [lastKey] is
    still [d]; pressing [a] again makes it walk left. *)
Theorem last_key_decides (g : Game.t) :
  Game.gameRunning g = true ->
  Sprite.isDead (Game.player g) = false ->
  let both := keydown "d" (keydown "a" g) in
  let released := keyup "d" both in
  let again := keydown "a" released in
  Keys.a (Game.keys both) = true /\ Keys.d (Game.keys both) = true /\
  Vec.x (Sprite.velocity (Game.player (playerMovement both))) = 5 /\
  Sprite.direction (Game.player (playerMovement both)) = 1%Z /\
  Keys.a (Game.keys released) = true /\
  Vec.x (Sprite.velocity (Game.player (playerMovement released))) = 0 /\
  Vec.x (Sprite.velocity (Game.player (playerMovement again))) = -5 /\
  Sprite.direction (Game.player (playerMovement again)) = (-1)%Z.
Proof.
  intros R Halive both released again.
  subst again released both. unfold keydown, keyup.
  cbn [String.eqb Ascii.eqb Bool.eqb andb].
  rewrite R. cbn [negb Game.gameRunning Game.set_player Game.set_keys].
  rewrite R. cbn [negb].
  unfold playerMovement. cbn. rewrite !Halive, !R. cbn.
  rewrite ?Halive, ?R. cbn. repeat split.
Qed.

Lemma last_key_decides_witness :
  Vec.x (Sprite.velocity
           (Game.player
              (playerMovement (keyup "d" (keydown "d" (keydown "a" boot))))))
    = 0.
Proof.
  refine (proj1 (proj2 (proj2 (proj2 (proj2 (proj2
            (last_key_decides boot _ _))))))); reflexivity.
Defined.

(** ** The stage, in every execution *)

(** A sprite that differs from one satisfying [geom] only in fields [geom]
    does not read, in a facing direction of the game, or in a horizontal
    velocity of the allowed ones, satisfies it too. *)
Lemma geom_intro (speed : Q) (s s' : Sprite.t) :
  Sprite.position s' = Sprite.position s ->
  Sprite.width s' = Sprite.width s ->
  Sprite.height s' = Sprite.height s ->
  AttackBox.width (Sprite.attackBox s') = AttackBox.width (Sprite.attackBox s) ->
  AttackBox.height (Sprite.attackBox s')
    = AttackBox.height (Sprite.attackBox s) ->
  AttackBox.offset (Sprite.attackBox s')
    = AttackBox.offset (Sprite.attackBox s) ->
  (Sprite.direction s' = Sprite.direction s \/
   Sprite.direction s' = 1%Z \/ Sprite.direction s' = (-1)%Z) ->
  (Vec.x (Sprite.velocity s') = Vec.x (Sprite.velocity s) \/
   Vec.x (Sprite.velocity s') = 0 \/
   Vec.x (Sprite.velocity s') = speed \/
   Vec.x (Sprite.velocity s') = - speed) ->
  geom speed s -> geom speed s'.
Proof.
  intros P W H BW BH BO D V ((C1 & C2 & C3 & C4 & C5 & C6) & O & K).
  unfold geom, asConstructed, onStage, walksAt in *.
  rewrite P, W, H, BW, BH, BO.
  split; [|split].
  - repeat split; try assumption.
    destruct D as [->|[D|D]]; auto.
  - exact O.
  - destruct V as [->|[V|[V|V]]]; auto.
Qed.

Lemma update_geom (speed : Q) (s : Sprite.t) :
  geom speed s -> geom speed (Sprite.update s).
Proof.
  intros ((C1 & C2 & C3 & C4 & C5 & C6) & (O1 & O2 & O3) & K).
  unfold Sprite.update. destruct (Sprite.isDead s).
  { repeat split; assumption. }
  unfold geom, asConstructed, onStage, walksAt.
  unfold Sprite.screenBoundaries, Sprite.applyGravity, Sprite.reachesGround.
  unfold canvas_width, canvas_height, GAME_WIDTH, GAME_HEIGHT, GROUND_HEIGHT
    in *.
  cbn. rewrite C1, C2 in *.
  destruct (Vec.y (Sprite.position s) + Vec.y (Sprite.velocity s) + 150
            + Vec.y (Sprite.velocity s) >=? 576 - 96) eqn:G; cbn;
    [apply js_ge_iff in G|apply js_ge_false_iff in G];
    (destruct (Vec.x (Sprite.position s) + Vec.x (Sprite.velocity s) <? 0)
       eqn:L; cbn; rewrite ?C1;
     [apply js_lt_iff in L|apply js_lt_false_iff in L]);
    (match goal with
     | |- context [?a + 50 >? 1024] =>
         destruct (a + 50 >? 1024) eqn:R; cbn; rewrite ?C1, ?C2;
         [apply js_gt_iff in R|apply js_gt_false_iff in R]
     end);
    (split; [repeat split; assumption|]);
    (split; [|exact K]);
    repeat split; try lra;
    destruct (Qlt_le_dec (Vec.y (Sprite.velocity s)) 0); lra.
Qed.

Lemma takeHit_geom (speed d : Q) (s : Sprite.t) :
  geom speed s -> geom speed (Sprite.takeHit d s).
Proof. unfold Sprite.takeHit. case_if; (apply geom_intro; geom_side). Qed.

Lemma updateEntities_stageInv (g : Game.t) :
  stageInv g -> stageInv (updateEntities g).
Proof. intros (P & E). split; apply update_geom; assumption. Qed.

Lemma playerMovement_stageInv (g : Game.t) :
  stageInv g -> stageInv (playerMovement g).
Proof.
  intros (P & E). split; [|exact E]. revert P. unfold playerMovement.
  cbn [Game.player Game.set_player]. repeat case_if; (apply geom_intro; geom_side).
Qed.

Lemma attack_stageInv (this : Who) (g : Game.t) :
  stageInv g -> stageInv (attack this g).
Proof.
  intros (P & E).
  destruct this; unfold stageInv; cbn; split; assumption.
Qed.

Lemma updateEnemyAI_stageInv (random : Q) (g : Game.t) :
  stageInv g -> stageInv (updateEnemyAI random g).
Proof.
  intros (P & E). unfold updateEnemyAI.
  repeat case_if; try apply attack_stageInv;
    (split; [exact P|]); cbn [Game.enemy Game.set_enemy];
    revert E; (apply geom_intro; geom_side).
Qed.

Lemma playerHitsEnemy_stageInv (g : Game.t) :
  stageInv g -> stageInv (playerHitsEnemy g).
Proof.
  intros (P & E). unfold playerHitsEnemy.
  repeat case_if; cbn; split; try assumption;
    try apply takeHit_geom; try assumption; revert P; (apply geom_intro; geom_side).
Qed.

Lemma enemyHitsPlayer_stageInv (g : Game.t) :
  stageInv g -> stageInv (enemyHitsPlayer g).
Proof.
  intros (P & E). unfold enemyHitsPlayer.
  repeat case_if; cbn; split; try assumption;
    try apply takeHit_geom; try assumption; revert E; (apply geom_intro; geom_side).
Qed.

Lemma animate_stageInv (random : Q) (g : Game.t) :
  stageInv g -> stageInv (animate random g).
Proof.
  intro I. unfold animate, beforeCollisions, stageInv.
  destruct (endGameCheck_sprites
              (enemyHitsPlayer
                 (playerHitsEnemy
                    (updateEnemyAI random
                       (playerMovement (updateEntities g))))))
    as (-> & ->).
  apply enemyHitsPlayer_stageInv, playerHitsEnemy_stageInv,
    updateEnemyAI_stageInv, playerMovement_stageInv, updateEntities_stageInv, I.
Qed.

Lemma keydown_stageInv (key : string) (g : Game.t) :
  stageInv g -> stageInv (keydown key g).
Proof.
  intros I. unfold keydown.
  repeat case_if; try exact I; try apply attack_stageInv; try exact I;
    destruct I as (P & E); (split; [|exact E]); cbn; revert P; (apply geom_intro; geom_side).
Qed.

Lemma keyup_stageInv (key : string) (g : Game.t) :
  stageInv g -> stageInv (keyup key g).
Proof. intros I. unfold keyup. repeat case_if; exact I. Qed.

Lemma runCallback_stageInv (cb : Callback) (g : Game.t) :
  stageInv g -> stageInv (runCallback cb g).
Proof.
  intros (P & E). destruct cb as [|this]; cbn [runCallback].
  - unfold stageInv. destruct (decreaseTimer_sprites g) as (-> & ->).
    split; assumption.
  - destruct this; unfold stageInv; cbn; split; assumption.
Qed.

Lemma step_stageInv (ev : Event) (g g' : Game.t) :
  stageInv g -> step ev g = Some g' -> stageInv g'.
Proof.
  intros I. destruct ev as [r|k|k|dt|]; cbn [step]; intro S.
  - apply some_eq in S. subst g'. apply animate_stageInv, I.
  - apply some_eq in S. subst g'. apply keydown_stageInv, I.
  - apply some_eq in S. subst g'. apply keyup_stageInv, I.
  - apply some_eq in S. subst g'. exact I.
  - destruct (earliest (Game.pending g)) as [t|]; [|discriminate].
    destruct (Timer.due t <=? Game.now g)%N; [|discriminate].
    apply some_eq in S. subst g'. apply runCallback_stageInv. exact I.
Qed.

Lemma boot_stageInv : stageInv boot.
Proof.
  unfold stageInv, geom, asConstructed, onStage, walksAt.
  cbn. repeat split; auto; cbv; discriminate.
Qed.

Lemma run_stageInv (evs : list Event) :
  forall g g', stageInv g -> run evs g = Some g' -> stageInv g'.
Proof.
  induction evs as [|ev evs IH]; intros g g' I; cbn [run].
  - intro S. apply some_eq in S. subst g'. exact I.
  - destruct (step ev g) as [g1|] eqn:S; [|discriminate].
    apply IH. apply (step_stageInv ev g g1 I S).
Qed.

(** X7. The stage (lines 96-111, through every caller).  In every
    execution both fighters stay on the canvas and on or above the ground:
    [0 <= position.x <= 1024 - 50] and [position.y <= 576 - 96 - 150], dead
    or alive, running or ended. *)
Theorem fighters_stay_on_stage (evs : list Event) (g : Game.t) :
  run evs boot = Some g ->
  forall this : Who,
    0 <= Vec.x (Sprite.position (Game.sprite this g)) /\
    Vec.x (Sprite.position (Game.sprite this g)) <= 974 /\
    Vec.y (Sprite.position (Game.sprite this g)) <= 330.
Proof.
  intros Hrun this.
  destruct (run_stageInv evs boot g boot_stageInv Hrun) as (P & E).
  assert (G : exists v, geom v (Game.sprite this g)).
  { destruct this; [exists 5|exists 2]; assumption. }
  destruct G as (v & (C1 & C2 & _) & (O1 & O2 & O3) & _).
  rewrite C1 in O2. rewrite C2 in O3.
  unfold canvas_width, canvas_height, GAME_WIDTH, GAME_HEIGHT, GROUND_HEIGHT
    in *.
  repeat split; lra.
Qed.

Lemma fighters_stay_on_stage_witness :
  0 <= Vec.x (Sprite.position (Game.sprite Enemy knockedOut)) /\
  Vec.x (Sprite.position (Game.sprite Enemy knockedOut)) <= 974 /\
  Vec.y (Sprite.position (Game.sprite Enemy knockedOut)) <= 330.
Proof.
  apply (fighters_stay_on_stage knockout knockedOut).
  vm_compute. reflexivity.
Defined.

(** X8. Shape and speed (constructor, lines 260-272, 199-229, through every
    caller).  In every execution both fighters keep the size 50 x 150, the
    attack box size 100 x 50 and the offset (0, 50) of the constructor, face
    in direction 1 or -1, and have a horizontal velocity of 0, 5 or -5 (the
    player) and 0, 2 or -2 (the enemy). *)
Theorem fighters_keep_shape_and_speed (evs : list Event) (g : Game.t) :
  run evs boot = Some g ->
  (forall this : Who, asConstructed (Game.sprite this g)) /\
  walksAt 5 (Game.player g) /\ walksAt 2 (Game.enemy g).
Proof.
  intros Hrun.
  destruct (run_stageInv evs boot g boot_stageInv Hrun)
    as ((C & _ & K) & (C' & _ & K')).
  split; [intros []; assumption|]. split; assumption.
Qed.

Lemma fighters_keep_shape_and_speed_witness :
  (forall this : Who, asConstructed (Game.sprite this duelState)) /\
  walksAt 5 (Game.player duelState) /\ walksAt 2 (Game.enemy duelState).
Proof.
  apply (fighters_keep_shape_and_speed duel duelState).
  vm_compute. reflexivity.
Defined.

(** ** Health, in every execution *)

Lemma healthy_ext (s s' : Sprite.t) :
  Sprite.health s' = Sprite.health s -> Sprite.isDead s' = Sprite.isDead s ->
  healthy s -> healthy s'.
Proof. unfold healthy. intros -> ->. auto. Qed.

Lemma takeHit_ext (d : Q) (s s' : Sprite.t) :
  Sprite.health s' = Sprite.health s -> Sprite.isDead s' = Sprite.isDead s ->
  Sprite.health (Sprite.takeHit d s') = Sprite.health (Sprite.takeHit d s) /\
  Sprite.isDead (Sprite.takeHit d s') = Sprite.isDead (Sprite.takeHit d s).
Proof.
  intros H D. unfold Sprite.takeHit. cbn. rewrite H.
  case_if; cbn; auto.
Qed.

Lemma playerHitsEnemy_enemy (g : Game.t) :
  (Sprite.health (Game.enemy (playerHitsEnemy g))
     = Sprite.health (Game.enemy g) /\
   Sprite.isDead (Game.enemy (playerHitsEnemy g))
     = Sprite.isDead (Game.enemy g)) \/
  (rectangularCollision (Game.player g) (Game.enemy g)
   && Sprite.isAttacking (Game.player g) && Game.gameRunning g = true /\
   Sprite.isDead (Game.enemy g) = false /\
   Game.enemy (playerHitsEnemy g) = Sprite.takeHit 10 (Game.enemy g)).
Proof.
  unfold playerHitsEnemy.
  destruct (rectangularCollision (Game.player g) (Game.enemy g)
            && Sprite.isAttacking (Game.player g) && Game.gameRunning g);
    [|auto].
  cbn. destruct (Sprite.isDead (Game.enemy g)) eqn:D; cbn;
    [left; split; [reflexivity|exact D]|right; repeat split; try exact D].
Qed.

Lemma enemyHitsPlayer_player (g : Game.t) :
  (Sprite.health (Game.player (enemyHitsPlayer g))
     = Sprite.health (Game.player g) /\
   Sprite.isDead (Game.player (enemyHitsPlayer g))
     = Sprite.isDead (Game.player g)) \/
  (rectangularCollision (Game.enemy g) (Game.player g)
   && Sprite.isAttacking (Game.enemy g) && Game.gameRunning g = true /\
   Sprite.isDead (Game.player g) = false /\
   Game.player (enemyHitsPlayer g) = Sprite.takeHit 10 (Game.player g)).
Proof.
  unfold enemyHitsPlayer.
  destruct (rectangularCollision (Game.enemy g) (Game.player g)
            && Sprite.isAttacking (Game.enemy g) && Game.gameRunning g);
    [|auto].
  cbn. destruct (Sprite.isDead (Game.player g)) eqn:D; cbn;
    [left; split; [reflexivity|exact D]|right; repeat split; try exact D].
Qed.

(** What one step can do to the health and [isDead] of a fighter: nothing,
    or, in a frame in which the opponent's hit is confirmed and the fighter
    is not dead, what [takeHit(10)] does. *)
Lemma step_sprite_combat (ev : Event) (g g' : Game.t) (this : Who) :
  step ev g = Some g' ->
  (Sprite.health (Game.sprite this g') = Sprite.health (Game.sprite this g) /\
   Sprite.isDead (Game.sprite this g') = Sprite.isDead (Game.sprite this g)) \/
  (exists random,
     ev = Frame random /\
     confirmedHit (opponent this) random g = true /\
     Sprite.isDead (Game.sprite this g) = false /\
     Sprite.health (Game.sprite this g')
       = Sprite.health (Sprite.takeHit 10 (Game.sprite this g)) /\
     Sprite.isDead (Game.sprite this g')
       = Sprite.isDead (Sprite.takeHit 10 (Game.sprite this g))).
Proof.
  assert (Hq : forall h, quiet g h ->
            Sprite.health (Game.sprite this h)
              = Sprite.health (Game.sprite this g) /\
            Sprite.isDead (Game.sprite this h)
              = Sprite.isDead (Game.sprite this g)).
  { intros h (_ & _ & _ & A & B & C & D & _). destruct this; cbn; auto. }
  destruct ev as [r|k|k|dt|]; cbn [step]; intro S.
  - apply some_eq in S.
    assert (Eg' : g' = endGameCheck
                         (enemyHitsPlayer
                            (playerHitsEnemy (beforeCollisions r g))))
      by (subst g'; reflexivity).
    assert (Hp1 : confirmedHit Player r g
              = rectangularCollision (Game.player (beforeCollisions r g))
                  (Game.enemy (beforeCollisions r g))
                && Sprite.isAttacking (Game.player (beforeCollisions r g))
                && Game.gameRunning (beforeCollisions r g)) by reflexivity.
    assert (He1 : confirmedHit Enemy r g
              = rectangularCollision
                  (Game.enemy (playerHitsEnemy (beforeCollisions r g)))
                  (Game.player (playerHitsEnemy (beforeCollisions r g)))
                && Sprite.isAttacking
                     (Game.enemy (playerHitsEnemy (beforeCollisions r g)))
                && Game.gameRunning (playerHitsEnemy (beforeCollisions r g)))
      by reflexivity.
    pose proof (beforeCollisions_quiet r g)
      as (_ & _ & _ & Q4 & Q5 & Q6 & Q7 & _).
    clear S. revert Eg' Hp1 He1 Q4 Q5 Q6 Q7.
    generalize (beforeCollisions r g) as g1.
    intros g1 Eg' Hp1 He1 Q4 Q5 Q6 Q7.
    pose proof (playerHitsEnemy_effect g1) as (_ & _ & _ & _ & A5 & A6 & _).
    pose proof (playerHitsEnemy_enemy g1) as A.
    revert Eg' He1 A5 A6 A. generalize (playerHitsEnemy g1) as g2.
    intros g2 Eg' He1 A5 A6 A.
    pose proof (enemyHitsPlayer_effect g2) as (_ & _ & _ & _ & B5 & B6 & _).
    pose proof (enemyHitsPlayer_player g2) as B.
    destruct (endGameCheck_sprites (enemyHitsPlayer g2)) as (Sp & Se).
    rewrite Eg'. destruct this; cbn [Game.sprite opponent].
    + rewrite Sp. destruct B as [(B1 & B2)|(B1 & B2 & B3)].
      * left. split; congruence.
      * right. exists r. split; [reflexivity|]. split; [congruence|].
        split; [congruence|]. rewrite B3.
        apply takeHit_ext; congruence.
    + rewrite Se, B5, B6. destruct A as [(A1 & A2)|(A1 & A2 & A3)].
      * left. split; congruence.
      * right. exists r. split; [reflexivity|]. split; [congruence|].
        split; [congruence|]. rewrite A3.
        apply takeHit_ext; congruence.
  - apply some_eq in S. subst g'. left. apply Hq, keydown_quiet.
  - apply some_eq in S. subst g'. left. apply Hq, keyup_quiet.
  - apply some_eq in S. subst g'. left. apply Hq, advance_quiet.
  - destruct (earliest (Game.pending g)) as [t|]; [|discriminate].
    destruct (Timer.due t <=? Game.now g)%N; [|discriminate].
    apply some_eq in S. subst g'. left.
    destruct (Timer.callback t) as [|that]; cbn [runCallback].
    + destruct (decreaseTimer_sprites
                  (Game.set_pending (dropTimer (Timer.id t) (Game.pending g)) g))
        as (A & B).
      destruct this; cbn [Game.sprite]; rewrite ?A, ?B; split; reflexivity.
    + apply Hq. eapply quiet_trans; [apply dropTimer_quiet|].
      apply resetAttack_quiet.
Qed.

Lemma run_healthy (evs : list Event) :
  forall g g',
    (forall this, healthy (Game.sprite this g)) ->
    run evs g = Some g' -> forall this, healthy (Game.sprite this g').
Proof.
  induction evs as [|ev evs IH]; intros g g' I; cbn [run].
  - intro S. apply some_eq in S. subst g'. exact I.
  - destruct (step ev g) as [g1|] eqn:S; [|discriminate].
    apply IH. intro this.
    destruct (step_sprite_combat ev g g1 this S)
      as [(A & B)|(r & _ & _ & _ & A & B)].
    + apply (healthy_ext _ _ A B), I.
    + apply (healthy_ext _ _ A B), healthy_takeHit; [lra|apply I].
Qed.

Lemma boot_healthy (this : Who) : healthy (Game.sprite this boot).
Proof.
  destruct this; right; cbn; repeat split; cbv;
    first [reflexivity | discriminate].
Qed.

(** X9. Health in the game (lines 122-128 through lines 277-299).  In every
    execution the health of each fighter is within [0, 100] and [isDead] is
    true exactly when the health is 0. *)
Theorem health_in_every_execution (evs : list Event) (g : Game.t) :
  run evs boot = Some g ->
  forall this : Who,
    0 <= Sprite.health (Game.sprite this g) /\
    Sprite.health (Game.sprite this g) <= 100 /\
    (Sprite.isDead (Game.sprite this g) = true
     <-> Sprite.health (Game.sprite this g) == 0).
Proof.
  intros Hrun this.
  destruct (run_healthy evs boot g boot_healthy Hrun this)
    as [(D & H)|(D & Hpos & Hle)].
  - rewrite H, D. split; [lra|]. split; [lra|]. split; intro; reflexivity.
  - rewrite D. split; [lra|]. split; [lra|]. split; [discriminate|].
    intro E. lra.
Qed.

Lemma health_in_every_execution_witness :
  Sprite.isDead (Game.sprite Enemy knockedOut) = true
  <-> Sprite.health (Game.sprite Enemy knockedOut) == 0.
Proof.
  refine (proj2 (proj2 (health_in_every_execution knockout knockedOut _ Enemy))).
  vm_compute. reflexivity.
Defined.

Lemma beforeCollisions_enemy_attack (random : Q) (g : Game.t) :
  Sprite.isAttacking (Game.enemy (beforeCollisions random g)) = true ->
  Sprite.isAttacking (Game.enemy g) = true \/ random < 0.02.
Proof.
  destruct (random <? 0.02) eqn:Rnd.
  { intros _. right. apply js_lt_iff, Rnd. }
  pose proof (update_keeps_combat (Game.enemy g)) as (_ & _ & B).
  unfold beforeCollisions, updateEnemyAI, playerMovement, updateEntities.
  rewrite Rnd. repeat (case_if; cbn); rewrite ?B; auto.
Qed.

Lemma confirmedHit_needs_attack (this : Who) (random : Q) (g : Game.t) :
  confirmedHit this random g = true ->
  Game.gameRunning g = true /\
  (Sprite.isAttacking (Game.sprite this g) = true \/
   (this = Enemy /\ random < 0.02)).
Proof.
  pose proof (beforeCollisions_quiet random g) as (Q1 & _).
  destruct (beforeCollisions_isAttacking random g) as (Bp & _).
  pose proof (beforeCollisions_enemy_attack random g) as Be.
  assert (Hp1 : confirmedHit Player random g
            = rectangularCollision (Game.player (beforeCollisions random g))
                (Game.enemy (beforeCollisions random g))
              && Sprite.isAttacking (Game.player (beforeCollisions random g))
              && Game.gameRunning (beforeCollisions random g)) by reflexivity.
  assert (He1 : confirmedHit Enemy random g
            = rectangularCollision
                (Game.enemy (playerHitsEnemy (beforeCollisions random g)))
                (Game.player (playerHitsEnemy (beforeCollisions random g)))
              && Sprite.isAttacking
                   (Game.enemy (playerHitsEnemy (beforeCollisions random g)))
              && Game.gameRunning (playerHitsEnemy (beforeCollisions random g)))
    by reflexivity.
  revert Q1 Bp Be Hp1 He1. generalize (beforeCollisions random g) as g1.
  intros g1 Q1 Bp Be Hp1 He1.
  destruct this; cbn [Game.sprite].
  - rewrite Hp1, !andb_true_iff. intros ((_ & A) & R).
    split; [congruence|left; congruence].
  - rewrite He1, !andb_true_iff. intros ((_ & A) & R).
    pose proof (playerHitsEnemy_effect g1) as (A1 & _).
    split; [congruence|].
    assert (X : Sprite.isAttacking (Game.enemy g1) = true).
    { revert A. unfold playerHitsEnemy, Sprite.takeHit.
      repeat (case_if; cbn); auto. }
    destruct (Be X); auto.
Qed.

(** X10. Damage (lines 277-299 with lines 122-128).  In every execution, a
    step changes the health of a fighter only if it is a frame in which the
    opponent's hit is confirmed; the fighter then had positive health and
    loses exactly 10, or, with 10 or less left, drops to 0 and is dead.
    Health never goes up. *)
Theorem damage_of_one_step (evs : list Event) (g : Game.t) (ev : Event)
    (g' : Game.t) (this : Who) :
  run evs boot = Some g -> step ev g = Some g' ->
  Sprite.health (Game.sprite this g') = Sprite.health (Game.sprite this g) \/
  (exists random,
     ev = Frame random /\
     confirmedHit (opponent this) random g = true /\
     0 < Sprite.health (Game.sprite this g) /\
     ((10 < Sprite.health (Game.sprite this g) /\
       Sprite.health (Game.sprite this g')
         = Sprite.health (Game.sprite this g) - 10) \/
      (Sprite.health (Game.sprite this g) <= 10 /\
       Sprite.health (Game.sprite this g') = 0 /\
       Sprite.isDead (Game.sprite this g') = true))).
Proof.
  intros Hrun S.
  destruct (step_sprite_combat ev g g' this S)
    as [(A & _)|(r & E & C & D & A & B)]; [left; exact A|].
  right. exists r. split; [exact E|]. split; [exact C|].
  destruct (confirmedHit_needs_attack _ _ _ C) as (R & _).
  pose proof (run_matchInv evs boot g boot_matchInv Hrun) as (I & _).
  destruct (I R) as (_ & Hp & He & _).
  assert (Pos : 0 < Sprite.health (Game.sprite this g))
    by (destruct this; assumption).
  split; [exact Pos|].
  rewrite A, B. unfold Sprite.takeHit. cbn.
  destruct (Sprite.health (Game.sprite this g) - 10 <=? 0) eqn:K; cbn.
  - apply js_le_iff in K. right. split; [lra|]. split; reflexivity.
  - apply js_le_false_iff in K. left. split; [lra|reflexivity].
Qed.

Lemma damage_of_one_step_witness :
  Sprite.health (Game.sprite Enemy (animate 0.01 duelState))
    = Sprite.health (Game.sprite Enemy duelState) \/
  (exists random,
     Frame 0.01 = Frame random /\
     confirmedHit (opponent Enemy) random duelState = true /\
     0 < Sprite.health (Game.sprite Enemy duelState) /\
     ((10 < Sprite.health (Game.sprite Enemy duelState) /\
       Sprite.health (Game.sprite Enemy (animate 0.01 duelState))
         = Sprite.health (Game.sprite Enemy duelState) - 10) \/
      (Sprite.health (Game.sprite Enemy duelState) <= 10 /\
       Sprite.health (Game.sprite Enemy (animate 0.01 duelState)) = 0 /\
       Sprite.isDead (Game.sprite Enemy (animate 0.01 duelState)) = true))).
Proof.
  refine (damage_of_one_step duel duelState (Frame 0.01)
            (animate 0.01 duelState) Enemy _ eq_refl).
  vm_compute. reflexivity.
Defined.

(** X11. No damage without an attack (lines 277-299, 199-229).  A frame
    leaves the enemy's health and [isDead] alone when the player is not
    attacking as the frame begins, and the player's when the enemy is not
    attacking and the draw of [Math.random()] is 0.02 or more; it leaves
    both alone when the match is not running. *)
Theorem no_damage_without_attack (random : Q) (g : Game.t) :
  let g' := animate random g in
  (Sprite.isAttacking (Game.player g) = false \/ Game.gameRunning g = false ->
     Sprite.health (Game.enemy g') = Sprite.health (Game.enemy g) /\
     Sprite.isDead (Game.enemy g') = Sprite.isDead (Game.enemy g)) /\
  ((Sprite.isAttacking (Game.enemy g) = false /\ 0.02 <= random)
   \/ Game.gameRunning g = false ->
     Sprite.health (Game.player g') = Sprite.health (Game.player g) /\
     Sprite.isDead (Game.player g') = Sprite.isDead (Game.player g)).
Proof.
  intro g'.
  assert (S : step (Frame random) g = Some g') by reflexivity.
  clearbody g'. revert g' S. intros g' S. split; intro H.
  - destruct (step_sprite_combat _ _ _ Enemy S) as [A|(r & E & C & _)];
      [exact A|].
    exfalso. injection E as <-.
    destruct (confirmedHit_needs_attack _ _ _ C) as (R & [X|(X & _)]);
      [|discriminate].
    cbn in X. destruct H; congruence.
  - destruct (step_sprite_combat _ _ _ Player S) as [A|(r & E & C & _)];
      [exact A|].
    exfalso. injection E as <-.
    destruct (confirmedHit_needs_attack _ _ _ C) as (R & [X|(_ & X)]).
    + cbn in X. destruct H as [(H & _)|H]; congruence.
    + destruct H as [(_ & H)|H]; [lra|congruence].
Qed.

Lemma no_damage_without_attack_witness :
  Sprite.health (Game.enemy (animate 0.5 boot)) = Sprite.health (Game.enemy boot)
  /\ Sprite.health (Game.player (animate 0.5 boot))
     = Sprite.health (Game.player boot).
Proof.
  destruct (no_damage_without_attack 0.5 boot) as (A & B). split.
  - apply A. left. reflexivity.
  - apply B. left. split; [reflexivity|cbv; discriminate].
Defined.

(** ** The end of the match *)

Lemma In_repeat_iff {A : Type} (a b : A) (n : nat) :
  In b (repeat a (S n)) <-> b = a.
Proof.
  split.
  - intro H. apply repeat_spec in H. exact H.
  - intros ->. left. reflexivity.
Qed.

Lemma verdict_iff (p e : Sprite.t) :
  (verdict p e = "Tie"%string <-> Sprite.health p == Sprite.health e) /\
  (verdict p e = "Player 1 Wins"%string
   <-> Sprite.health e < Sprite.health p) /\
  (verdict p e = "Enemy Wins"%string <-> Sprite.health p < Sprite.health e).
Proof.
  unfold verdict.
  destruct (Sprite.health p ===? Sprite.health e) eqn:E.
  - apply js_eq_iff in E.
    repeat split; intro H; try discriminate; try reflexivity; try lra;
      exfalso; lra.
  - assert (N : ~ Sprite.health p == Sprite.health e).
    { intro H. apply js_eq_iff in H. congruence. }
    destruct (Sprite.health p >? Sprite.health e) eqn:G;
      [apply js_gt_iff in G|apply js_gt_false_iff in G];
      repeat split; intro H; try discriminate; try reflexivity;
        try contradiction; try lra; exfalso; lra.
Qed.

(** X12. The result shown (lines 172-184 through lines 186-196, 301-304).
    In every execution that has ended, a message has been published, and
    the messages published are "Tie" exactly when the healths are equal,
    "Player 1 Wins" exactly when the player has more health, and
    "Enemy Wins" exactly when the enemy has more. *)
Theorem published_result_matches_health (evs : list Event) (g : Game.t) :
  run evs boot = Some g -> Game.gameRunning g = false ->
  published g <> [] /\
  (In "Tie"%string (published g)
   <-> Sprite.health (Game.player g) == Sprite.health (Game.enemy g)) /\
  (In "Player 1 Wins"%string (published g)
   <-> Sprite.health (Game.enemy g) < Sprite.health (Game.player g)) /\
  (In "Enemy Wins"%string (published g)
   <-> Sprite.health (Game.player g) < Sprite.health (Game.enemy g)).
Proof.
  intros Hrun R.
  pose proof (run_matchInv evs boot g boot_matchInv Hrun) as (_ & E & _).
  destruct (E R) as ((n & P) & _).
  destruct (verdict_iff (Game.player g) (Game.enemy g)) as (T & W & L).
  rewrite P. split; [discriminate|].
  rewrite !In_repeat_iff.
  split; [|split].
  - rewrite <- T. split; intro H; symmetry; exact H.
  - rewrite <- W. split; intro H; symmetry; exact H.
  - rewrite <- L. split; intro H; symmetry; exact H.
Qed.

Lemma published_result_matches_health_witness :
  In "Player 1 Wins"%string (published knockedOut)
  <-> Sprite.health (Game.enemy knockedOut)
      < Sprite.health (Game.player knockedOut).
Proof.
  refine (proj1 (proj2 (proj2
            (published_result_matches_health knockout knockedOut _ _))));
    vm_compute; reflexivity.
Defined.

Lemma dropTimer_twice (i : nat) (l : list Timer.t) :
  dropTimer i (dropTimer i l) = dropTimer i l.
Proof.
  unfold dropTimer. induction l as [|t l IH]; cbn; [reflexivity|].
  destruct (negb (Timer.id t =? i)%nat) eqn:E; cbn; rewrite ?E, IH;
    reflexivity.
Qed.

(** X13. Terminal evaluation again (lines 172-184).  Calling
    [determineWinner] a second time with the same arguments changes nothing
    but the list of published messages, which gets the same message once
    more: the match stays ended, the banner stays shown, and no further
    timer is cancelled. *)
Theorem determineWinner_again (player enemy : Sprite.t) (timerId : option nat)
    (g : Game.t) :
  let g1 := determineWinner player enemy timerId g in
  determineWinner player enemy timerId g1
    = Game.set_dom (Dom.write_result (verdict player enemy) (Game.dom g1)) g1.
Proof.
  unfold determineWinner, clearTimeout.
  destruct timerId as [i|]; cbn -[dropTimer]; [|reflexivity].
  rewrite dropTimer_twice. reflexivity.
Qed.

Lemma update_keeps_direction (s : Sprite.t) :
  Sprite.direction (Sprite.update s) = Sprite.direction s.
Proof.
  unfold Sprite.update, Sprite.screenBoundaries, Sprite.applyGravity.
  repeat (case_if; cbn); reflexivity.
Qed.

Lemma update_keeps_x_velocity (s : Sprite.t) :
  Vec.x (Sprite.velocity (Sprite.update s)) = Vec.x (Sprite.velocity s).
Proof.
  unfold Sprite.update, Sprite.screenBoundaries, Sprite.applyGravity.
  repeat (case_if; cbn); reflexivity.
Qed.

Lemma beforeCollisions_ended (random : Q) (g : Game.t) :
  Game.gameRunning g = false ->
  let halt (s : Sprite.t) :=
    Sprite.set_velocity (Vec.mk 0 (Vec.y (Sprite.velocity s))) s in
  beforeCollisions random g
    = Game.set_enemy (halt (Sprite.update (Game.enemy g)))
        (Game.set_player (halt (Sprite.update (Game.player g))) g).
Proof.
  intro R. unfold beforeCollisions, updateEnemyAI, playerMovement,
    updateEntities.
  cbn. rewrite R, andb_false_r, orb_true_r. reflexivity.
Qed.

(** X14. After the end (lines 199-203, 260-272, 277-299, 311-312).  Once
    the match is not running, a key press changes nothing, and a frame
    leaves the match ended, gives both fighters the horizontal velocity 0,
    keeps their facing direction, attack flag, health and [isDead], keeps
    the counter, and schedules no timer. *)
Theorem ended_match_is_frozen (random : Q) (key : string) (g : Game.t) :
  Game.gameRunning g = false ->
  keydown key g = g /\
  let g' := animate random g in
  Game.gameRunning g' = false /\ Game.timer g' = Game.timer g /\
  incl (Game.pending g') (Game.pending g) /\
  forall this : Who,
    Vec.x (Sprite.velocity (Game.sprite this g')) = 0 /\
    Sprite.direction (Game.sprite this g')
      = Sprite.direction (Game.sprite this g) /\
    Sprite.isAttacking (Game.sprite this g')
      = Sprite.isAttacking (Game.sprite this g) /\
    Sprite.health (Game.sprite this g') = Sprite.health (Game.sprite this g) /\
    Sprite.isDead (Game.sprite this g') = Sprite.isDead (Game.sprite this g).
Proof.
  intro R. split; [unfold keydown; rewrite R; reflexivity|].
  intro g'.
  assert (Eg' : g' = endGameCheck
                       (enemyHitsPlayer
                          (playerHitsEnemy (beforeCollisions random g))))
    by reflexivity.
  clearbody g'. revert g' Eg'. intros g' Eg'.
  pose proof (beforeCollisions_ended random g R) as B. cbn zeta in B.
  pose proof (beforeCollisions_quiet random g) as (Q1 & _).
  rewrite R in Q1.
  rewrite (playerHitsEnemy_ended _ Q1), (enemyHitsPlayer_ended _ Q1) in Eg'.
  revert Eg' B Q1. generalize (beforeCollisions random g) as g1.
  intros g1 Eg' B Q1.
  assert (F : Game.gameRunning g' = false /\ Game.timer g' = Game.timer g1 /\
              incl (Game.pending g') (Game.pending g1) /\
              Game.player g' = Game.player g1 /\
              Game.enemy g' = Game.enemy g1).
  { rewrite Eg'.
    destruct (endGameCheck_cases g1) as [(_ & ->)|(_ & _ & ->)].
    - pose proof (determineWinner_effect (Game.player g1) (Game.enemy g1)
                    (Game.timerId g1) g1) as (D1 & _ & D3 & D4 & _ & D6).
      split; [exact D1|].
      split; [unfold determineWinner, clearTimeout;
              destruct (Game.timerId g1); reflexivity|].
      split; [intros t Ht; apply D6, Ht|]. split; assumption.
    - split; [exact Q1|]. split; [reflexivity|].
      split; [apply incl_refl|]. split; reflexivity. }
  destruct F as (F1 & F2 & F3 & F4 & F5).
  split; [exact F1|]. split; [rewrite F2, B; reflexivity|].
  split; [rewrite B in F3; exact F3|].
  pose proof (update_keeps_combat (Game.player g)) as (Hp & Dp & Ap).
  pose proof (update_keeps_combat (Game.enemy g)) as (He & De & Ae).
  pose proof (update_keeps_direction (Game.player g)) as Fp.
  pose proof (update_keeps_direction (Game.enemy g)) as Fe.
  intros []; cbn [Game.sprite]; rewrite ?F4, ?F5, B; cbn;
    repeat split; assumption.
Qed.

Lemma ended_match_is_frozen_witness :
  keydown " " knockedOut = knockedOut /\
  Vec.x (Sprite.velocity (Game.sprite Player (animate 0.01 knockedOut))) = 0.
Proof.
  assert (R : Game.gameRunning knockedOut = false)
    by (vm_compute; reflexivity).
  destruct (ended_match_is_frozen 0.01 " " knockedOut R) as (K & F).
  split; [exact K|].
  destruct F as (_ & _ & _ & F). exact (proj1 (F Player)).
Defined.

(** ** The counter and the timer queue, in every execution *)

Lemma calm_refl (g : Game.t) : calm g g.
Proof. unfold calm. repeat split; auto. Qed.

Lemma calm_trans (g1 g2 g3 : Game.t) : calm g1 g2 -> calm g2 g3 -> calm g1 g3.
Proof.
  unfold calm.
  intros (A1 & A2 & A3 & A4 & A5 & A6 & A7 & A8)
         (B1 & B2 & B3 & B4 & B5 & B6 & B7 & B8).
  repeat split; try congruence. auto.
Qed.

Lemma calm_queueInv0 (g g' : Game.t) : queueInv0 g -> calm g g' -> queueInv0 g'.
Proof.
  intros (I1 & I2 & I4 & I5 & I6 & I7)
         (C1 & C2 & C3 & C4 & C5 & C6 & C7 & C8).
  unfold queueInv0. rewrite C1, C2, C4, C5, C6, C7.
  split; [exact I1|]. split; [exact I2|]. split; [exact I4|].
  split; [exact I5|]. split; [exact I6|].
  intros this F. apply I7, C8, F.
Qed.

Lemma calm_queueInv (g g' : Game.t) : queueInv g -> calm g g' -> queueInv g'.
Proof.
  intros (I0 & I8) C. split; [apply (calm_queueInv0 _ _ I0 C)|].
  destruct C as (C1 & _ & C3 & C4 & C5 & _). rewrite C1, C3, C4, C5.
  exact I8.
Qed.

Lemma updateEntities_calm (g : Game.t) : calm g (updateEntities g).
Proof.
  unfold calm, updateEntities. cbn. repeat split.
  pose proof (update_keeps_combat (Game.player g)) as (_ & _ & A).
  pose proof (update_keeps_combat (Game.enemy g)) as (_ & _ & B).
  intros []; cbn; congruence.
Qed.

Lemma playerMovement_calm (g : Game.t) : calm g (playerMovement g).
Proof. unfold playerMovement. calm_by_cases. Qed.

Lemma playerHitsEnemy_calm (g : Game.t) : calm g (playerHitsEnemy g).
Proof.
  unfold playerHitsEnemy, Sprite.takeHit. calm_by_cases; discriminate.
Qed.

Lemma enemyHitsPlayer_calm (g : Game.t) : calm g (enemyHitsPlayer g).
Proof.
  unfold enemyHitsPlayer, Sprite.takeHit. calm_by_cases; discriminate.
Qed.

Lemma keyup_calm (key : string) (g : Game.t) : calm g (keyup key g).
Proof. unfold keyup. calm_by_cases. Qed.

Lemma dropTimer_In (i : nat) (l : list Timer.t) (t : Timer.t) :
  In t l -> Timer.id t <> i -> In t (dropTimer i l).
Proof.
  unfold dropTimer. intros H N. apply filter_In. split; [exact H|].
  apply negb_true_iff, Nat.eqb_neq, N.
Qed.

Lemma NoDup_ids_dropTimer (i : nat) (l : list Timer.t) :
  NoDup (map Timer.id l) -> NoDup (map Timer.id (dropTimer i l)).
Proof.
  induction l as [|a l IH]; cbn; intro H; [constructor|].
  inversion H as [|x xs Hn Hd]; subst.
  destruct (negb (Timer.id a =? i)%nat); cbn.
  - constructor; [|apply IH, Hd].
    intro X. apply Hn. apply in_map_iff in X. destruct X as (u & Eu & Hu).
    apply in_dropTimer in Hu. destruct Hu as (Hu & _).
    apply in_map_iff. exists u. auto.
  - apply IH, Hd.
Qed.

Lemma NoDup_ids_inj (l : list Timer.t) (a b : Timer.t) :
  NoDup (map Timer.id l) -> In a l -> In b l -> Timer.id a = Timer.id b ->
  a = b.
Proof.
  induction l as [|c l IH]; cbn; [tauto|].
  intros H Ha Hb E. inversion H as [|x xs Hn Hd]; subst.
  destruct Ha as [->|Ha], Hb as [->|Hb]; auto.
  - exfalso. apply Hn. rewrite E. apply in_map, Hb.
  - exfalso. apply Hn. rewrite <- E. apply in_map, Ha.
Qed.

Lemma NoDup_ids_snoc (l : list Timer.t) (t : Timer.t) :
  NoDup (map Timer.id l) ->
  (forall u, In u l -> Timer.id u <> Timer.id t) ->
  NoDup (map Timer.id (l ++ [t])).
Proof.
  intros H F. rewrite map_app. apply NoDup_app; [exact H| |].
  - cbn. constructor; [intros []|constructor].
  - intros a Ha [<-|[]]. apply in_map_iff in Ha.
    destruct Ha as (u & Eu & Hu). apply (F u Hu Eu).
Qed.

(** Scheduling a timer whose callback is not the countdown. *)
Lemma schedule_queueInv0 (g : Game.t) (d : N) (cb : Callback) :
  queueInv0 g ->
  queueInv0
    (Game.set_nextId (S (Game.nextId g))
       (Game.set_pending
          (Game.pending g ++ [Timer.mk (Game.nextId g) (Game.now g + d)%N cb])
          g)).
Proof.
  intros (I1 & I2 & I4 & I5 & I6 & I7). unfold queueInv0. cbn.
  split; [exact I1|]. split; [exact I2|].
  split; [|split; [|split]].
  - apply NoDup_ids_snoc; [exact I4|]. intros u Hu. cbn.
    specialize (I5 u Hu). lia.
  - intros t Ht. apply in_app_or in Ht. destruct Ht as [Ht|[<-|[]]].
    + specialize (I5 t Ht). lia.
    + cbn. lia.
  - intros i Hi. destruct (I6 i Hi) as (A & B). split; [lia|].
    intros t Ht E. apply in_app_or in Ht. destruct Ht as [Ht|[<-|[]]].
    + apply (B t Ht E).
    + cbn in E. lia.
  - intros this F.
    assert (F' : Sprite.isAttacking (Game.sprite this g) = true)
      by (destruct this; exact F).
    destruct (I7 this F') as (t & Ht & C & D).
    exists t. split; [apply in_or_app; left; exact Ht|]. split; assumption.
Qed.

Lemma attack_queueInv0 (this : Who) (g : Game.t) :
  queueInv0 g -> queueInv0 (attack this g).
Proof.
  intros I.
  pose proof (schedule_queueInv0 g 100 (CbResetAttack this) I)
    as (I1 & I2 & I4 & I5 & I6 & I7).
  unfold queueInv0.
  replace (Game.timer (attack this g)) with (Game.timer g)
    by (destruct this; reflexivity).
  replace (Game.dom (attack this g)) with (Game.dom g)
    by (destruct this; reflexivity).
  replace (Game.timerId (attack this g)) with (Game.timerId g)
    by (destruct this; reflexivity).
  replace (Game.nextId (attack this g)) with (S (Game.nextId g))
    by (destruct this; reflexivity).
  replace (Game.now (attack this g)) with (Game.now g)
    by (destruct this; reflexivity).
  rewrite attack_pending.
  split; [exact I1|]. split; [exact I2|].
  split; [exact I4|]. split; [exact I5|]. split; [exact I6|].
  intros that F.
  assert (D : that = this \/
              Sprite.isAttacking (Game.sprite that g) = true).
  { destruct this, that; cbn in F; auto. }
  destruct D as [->|F'].
  - exists (Timer.mk (Game.nextId g) (Game.now g + 100)%N (CbResetAttack this)).
    split; [apply in_or_app; right; left; reflexivity|].
    split; [reflexivity|]. cbn. lia.
  - apply (I7 that). destruct that; exact F'.
Qed.

Lemma attack_queueInv (this : Who) (g : Game.t) :
  queueInv g -> queueInv (attack this g).
Proof.
  intros (I0 & I8). split; [apply attack_queueInv0, I0|].
  replace (Game.gameRunning (attack this g)) with (Game.gameRunning g)
    by (destruct this; reflexivity).
  replace (Game.timerId (attack this g)) with (Game.timerId g)
    by (destruct this; reflexivity).
  replace (Game.timer (attack this g)) with (Game.timer g)
    by (destruct this; reflexivity).
  rewrite attack_pending. intro R. destruct (I8 R) as (T & t & Ht & C & E).
  split; [exact T|].
  exists t. split; [apply in_or_app; left; exact Ht|]. split; assumption.
Qed.

Lemma updateEnemyAI_queueInv (random : Q) (g : Game.t) :
  queueInv g -> queueInv (updateEnemyAI random g).
Proof.
  intro I. unfold updateEnemyAI.
  repeat case_if; try apply attack_queueInv;
    apply (calm_queueInv _ _ I); unfold calm; cbn; repeat split; auto;
    intros []; cbn; auto.
Qed.

Lemma keydown_queueInv (key : string) (g : Game.t) :
  queueInv g -> queueInv (keydown key g).
Proof.
  intro I. unfold keydown.
  repeat case_if; try exact I; try (apply attack_queueInv; exact I);
    apply (calm_queueInv _ _ I); unfold calm; cbn; repeat split; auto;
    intros []; cbn; auto.
Qed.

(** [determineWinner] with the current [timerId] cancels no attack reset. *)
Lemma determineWinner_queueInv (g : Game.t) :
  queueInv0 g ->
  queueInv
    (determineWinner (Game.player g) (Game.enemy g) (Game.timerId g) g).
Proof.
  intros (I1 & I2 & I4 & I5 & I6 & I7).
  pose proof (determineWinner_effect (Game.player g) (Game.enemy g)
                (Game.timerId g) g) as (D1 & _ & D3 & D4 & D5 & D6).
  assert (Dt : Game.timer (determineWinner (Game.player g) (Game.enemy g)
                             (Game.timerId g) g) = Game.timer g)
    by (unfold determineWinner, clearTimeout;
        destruct (Game.timerId g); reflexivity).
  assert (Dd : Dom.timerDisplay
                 (Game.dom (determineWinner (Game.player g) (Game.enemy g)
                              (Game.timerId g) g))
               = Dom.timerDisplay (Game.dom g))
    by (unfold determineWinner, clearTimeout;
        destruct (Game.timerId g); reflexivity).
  assert (Dn : Game.nextId (determineWinner (Game.player g) (Game.enemy g)
                              (Game.timerId g) g) = Game.nextId g)
    by (unfold determineWinner, clearTimeout;
        destruct (Game.timerId g); reflexivity).
  assert (Dw : Game.now (determineWinner (Game.player g) (Game.enemy g)
                           (Game.timerId g) g) = Game.now g)
    by (unfold determineWinner, clearTimeout;
        destruct (Game.timerId g); reflexivity).
  assert (Dp : forall t, In t (Game.pending g) ->
                 Game.timerId g <> Some (Timer.id t) ->
                 In t (Game.pending
                         (determineWinner (Game.player g) (Game.enemy g)
                            (Game.timerId g) g))).
  { intros t Ht N. unfold determineWinner, clearTimeout.
    destruct (Game.timerId g) as [i|]; cbn -[dropTimer]; [|exact Ht].
    apply dropTimer_In; [exact Ht|]. intro E. apply N. congruence. }
  assert (Dnd : NoDup (map Timer.id
                         (Game.pending
                            (determineWinner (Game.player g) (Game.enemy g)
                               (Game.timerId g) g)))).
  { unfold determineWinner, clearTimeout.
    destruct (Game.timerId g) as [i|]; cbn -[dropTimer]; [|exact I4].
    apply NoDup_ids_dropTimer, I4. }
  revert D1 D3 D4 D5 D6 Dt Dd Dn Dw Dp Dnd.
  generalize (determineWinner (Game.player g) (Game.enemy g)
                (Game.timerId g) g) as g'.
  intros g' D1 D3 D4 D5 D6 Dt Dd Dn Dw Dp Dnd.
  split; [|rewrite D1; discriminate].
  unfold queueInv0. rewrite Dt, Dd, Dn, Dw, D5.
  split; [exact I1|]. split; [exact I2|].
  split; [exact Dnd|]. split; [|split].
  - intros t Ht. apply I5, D6, Ht.
  - intros i Hi. destruct (I6 i Hi) as (A & B). split; [exact A|].
    intros t Ht. apply B, D6, Ht.
  - intros this F.
    assert (F' : Sprite.isAttacking (Game.sprite this g) = true)
      by (destruct this; cbn in *; congruence).
    destruct (I7 this F') as (t & Ht & C & D).
    exists t. split; [|split; assumption].
    apply Dp; [exact Ht|]. intro E.
    destruct (I6 _ E) as (_ & B). specialize (B t Ht eq_refl). congruence.
Qed.

Lemma endGameCheck_queueInv (g : Game.t) :
  queueInv g -> queueInv (endGameCheck g).
Proof.
  intros I. pose proof I as (I0 & _).
  destruct (endGameCheck_cases g) as [(_ & ->)|(_ & _ & ->)].
  - apply determineWinner_queueInv, I0.
  - exact I.
Qed.

Lemma animate_queueInv (random : Q) (g : Game.t) :
  queueInv g -> queueInv (animate random g).
Proof.
  intro I. unfold animate, beforeCollisions.
  apply endGameCheck_queueInv.
  eapply calm_queueInv; [|apply enemyHitsPlayer_calm].
  eapply calm_queueInv; [|apply playerHitsEnemy_calm].
  apply updateEnemyAI_queueInv.
  eapply calm_queueInv; [|apply playerMovement_calm].
  eapply calm_queueInv; [|apply updateEntities_calm].
  exact I.
Qed.

Lemma advance_queueInv (dt : N) (g : Game.t) :
  queueInv g -> queueInv (Game.set_now (Game.now g + dt)%N g).
Proof.
  intros ((I1 & I2 & I4 & I5 & I6 & I7) & I8). split; [|exact I8].
  unfold queueInv0. cbn.
  split; [exact I1|]. split; [exact I2|]. split; [exact I4|].
  split; [exact I5|]. split; [exact I6|].
  intros this F. destruct (I7 this F) as (t & Ht & C & D).
  exists t. split; [exact Ht|]. split; [exact C|]. lia.
Qed.

(** The callback of an attack reset, after the host took its entry [t] out
    of the queue. *)
Lemma fire_reset_queueInv (g : Game.t) (t : Timer.t) (this : Who) :
  queueInv g -> In t (Game.pending g) ->
  Timer.callback t = CbResetAttack this ->
  queueInv
    (runCallback (CbResetAttack this)
       (Game.set_pending (dropTimer (Timer.id t) (Game.pending g)) g)).
Proof.
  intros ((I1 & I2 & I4 & I5 & I6 & I7) & I8) Et C.
  assert (Keep : forall u, In u (Game.pending g) ->
                   Timer.callback u <> CbResetAttack this ->
                   In u (dropTimer (Timer.id t) (Game.pending g))).
  { intros u Hu N. apply dropTimer_In; [exact Hu|]. intro E.
    apply N. rewrite (NoDup_ids_inj _ u t I4 Hu Et E). exact C. }
  split.
  - unfold queueInv0.
    destruct this; cbn -[dropTimer];
      (split; [exact I1|]); (split; [exact I2|]);
      (split; [apply NoDup_ids_dropTimer, I4|]);
      (split; [intros u Hu; apply in_dropTimer in Hu; apply I5, Hu|]);
      (split; [intros i Hi; destruct (I6 i Hi) as (A & B);
               split; [exact A|];
               intros u Hu; apply in_dropTimer in Hu; apply B, Hu|]);
      intros [] F; cbn in F; try discriminate;
      match goal with
      | |- exists _, _ /\ Timer.callback _ = CbResetAttack ?w /\ _ =>
          destruct (I7 w F) as (u & Hu & Cu & Du);
          exists u; split; [apply Keep; [exact Hu|congruence]|];
          split; assumption
      end.
  - assert (R : Game.gameRunning
                  (runCallback (CbResetAttack this)
                     (Game.set_pending
                        (dropTimer (Timer.id t) (Game.pending g)) g))
                = Game.gameRunning g) by (destruct this; reflexivity).
    assert (Ti : Game.timer
                  (runCallback (CbResetAttack this)
                     (Game.set_pending
                        (dropTimer (Timer.id t) (Game.pending g)) g))
                = Game.timer g) by (destruct this; reflexivity).
    assert (Id : Game.timerId
                  (runCallback (CbResetAttack this)
                     (Game.set_pending
                        (dropTimer (Timer.id t) (Game.pending g)) g))
                = Game.timerId g) by (destruct this; reflexivity).
    assert (P : Game.pending
                  (runCallback (CbResetAttack this)
                     (Game.set_pending
                        (dropTimer (Timer.id t) (Game.pending g)) g))
                = dropTimer (Timer.id t) (Game.pending g))
      by (destruct this; reflexivity).
    rewrite R, Ti, Id, P. intro Hr. destruct (I8 Hr) as (T & c & Hc & Cc & Ec).
    split; [exact T|]. exists c.
    split; [apply Keep; [exact Hc|congruence]|]. split; assumption.
Qed.

(** The countdown callback on a running match, after the host took its
    entry [t] out of the queue. *)
Lemma fire_countdown_queueInv (g : Game.t) (t : Timer.t) :
  queueInv g -> Game.gameRunning g = true -> In t (Game.pending g) ->
  Timer.callback t = CbDecreaseTimer ->
  queueInv
    (decreaseTimer
       (Game.set_pending (dropTimer (Timer.id t) (Game.pending g)) g)).
Proof.
  intros ((I1 & I2 & I4 & I5 & I6 & I7) & I8) R Et C.
  destruct (I8 R) as (T & _).
  set (g1 := Game.set_pending (dropTimer (Timer.id t) (Game.pending g)) g).
  assert (I01 : queueInv0 g1).
  { unfold queueInv0. subst g1. cbn -[dropTimer].
    split; [exact I1|]. split; [exact I2|].
    split; [apply NoDup_ids_dropTimer, I4|].
    split; [intros u Hu; apply in_dropTimer in Hu; apply I5, Hu|].
    split.
    - intros i Hi. destruct (I6 i Hi) as (A & B). split; [exact A|].
      intros u Hu. apply in_dropTimer in Hu. apply B, Hu.
    - intros this F. destruct (I7 this F) as (u & Hu & Cu & Du).
      exists u. split; [|split; assumption].
      apply dropTimer_In; [exact Hu|]. intro E.
      rewrite (NoDup_ids_inj _ u t I4 Hu Et E) in Cu. congruence. }
  unfold decreaseTimer.
  assert (G : (Game.timer g1 >? 0)%Z = true) by (apply Z.gtb_lt; exact T).
  rewrite G. cbn [setTimeout].
  set (g2 := Game.set_dom _ _).
  assert (I02 : queueInv0 g2).
  { pose proof (schedule_queueInv0 g1 1000 CbDecreaseTimer I01)
      as (J1 & J2 & J4 & J5 & J6 & J7).
    unfold queueInv0. subst g2. cbn -[dropTimer] in *.
    split; [lia|]. split; [reflexivity|]. split; [exact J4|].
    split; [exact J5|]. split; [|exact J7].
    intros i Hi. injection Hi as <-. split; [lia|].
    intros u Hu E. apply in_app_or in Hu. destruct Hu as [Hu|[<-|[]]].
    - apply in_dropTimer in Hu. destruct Hu as (Hu & _).
      specialize (I5 u Hu). lia.
    - reflexivity. }
  assert (R2 : Game.gameRunning g2 = true) by exact R.
  assert (T2 : Game.timer g2 = (Game.timer g - 1)%Z) by reflexivity.
  assert (P2 : In (Timer.mk (Game.nextId g) (Game.now g + 1000)%N
                     CbDecreaseTimer) (Game.pending g2))
    by (subst g2; cbn -[dropTimer]; apply in_or_app; right; left; reflexivity).
  assert (Id2 : Game.timerId g2 = Some (Game.nextId g)) by reflexivity.
  clearbody g2.
  destruct (Game.timer g2 =? 0)%Z eqn:Z0.
  - apply determineWinner_queueInv, I02.
  - split; [exact I02|]. intros _. apply Z.eqb_neq in Z0.
    split; [lia|].
    exists (Timer.mk (Game.nextId g) (Game.now g + 1000)%N CbDecreaseTimer).
    split; [exact P2|]. split; [reflexivity|exact Id2].
Qed.

Lemma step_queueInv (ev : Event) (g g' : Game.t) :
  matchInv g -> queueInv g -> step ev g = Some g' -> queueInv g'.
Proof.
  intros M I. destruct ev as [r|k|k|dt|]; cbn [step]; intro S.
  - apply some_eq in S. subst g'. apply animate_queueInv, I.
  - apply some_eq in S. subst g'. apply keydown_queueInv, I.
  - apply some_eq in S. subst g'. apply (calm_queueInv _ _ I), keyup_calm.
  - apply some_eq in S. subst g'. apply advance_queueInv, I.
  - destruct (earliest (Game.pending g)) as [t|] eqn:Et; [|discriminate].
    destruct (Timer.due t <=? Game.now g)%N; [|discriminate].
    apply some_eq in S. subst g'. apply earliest_In in Et.
    destruct (Timer.callback t) as [|this] eqn:C.
    + cbn [runCallback]. destruct (Game.gameRunning g) eqn:R.
      * apply fire_countdown_queueInv; assumption.
      * destruct M as (_ & E & _). destruct (E R) as (_ & _ & NC).
        destruct (NC t Et C).
    + apply fire_reset_queueInv; assumption.
Qed.

Lemma boot_queueInv : queueInv boot.
Proof.
  split.
  - unfold queueInv0. cbn.
    split; [lia|]. split; [reflexivity|].
    split; [repeat constructor; intros []|].
    split; [intros t [<-|[]]; cbn; lia|].
    split.
    + intros i [= <-]. split; [lia|]. intros t [<-|[]] _. reflexivity.
    + intros [] F; discriminate F.
  - intros _. split; [cbn; lia|].
    exists (Timer.mk 0 1000 CbDecreaseTimer).
    split; [left; reflexivity|]. split; reflexivity.
Qed.

Lemma run_queueInv (evs : list Event) :
  forall g g', matchInv g -> queueInv g -> run evs g = Some g' -> queueInv g'.
Proof.
  induction evs as [|ev evs IH]; intros g g' M I; cbn [run].
  - intro S. apply some_eq in S. subst g'. exact I.
  - destruct (step ev g) as [g1|] eqn:S; [|discriminate].
    apply IH.
    + apply (step_matchInv ev g g1 M S).
    + apply (step_queueInv ev g g1 M I S).
Qed.

Lemma determineWinner_timer (p e : Sprite.t) (i : option nat) (g : Game.t) :
  Game.timer (determineWinner p e i g) = Game.timer g.
Proof. unfold determineWinner, clearTimeout. destruct i; reflexivity. Qed.

Lemma animate_timer (random : Q) (g : Game.t) :
  Game.timer (animate random g) = Game.timer g.
Proof.
  unfold animate, beforeCollisions.
  assert (A : forall h, Game.timer (updateEnemyAI random h) = Game.timer h).
  { intro h. unfold updateEnemyAI, attack. repeat (case_if; cbn); reflexivity. }
  assert (E : forall h, Game.timer (endGameCheck h) = Game.timer h).
  { intro h. destruct (endGameCheck_cases h) as [(_ & ->)|(_ & _ & ->)];
      [apply determineWinner_timer|reflexivity]. }
  rewrite E.
  rewrite (proj1 (enemyHitsPlayer_calm _)), (proj1 (playerHitsEnemy_calm _)), A.
  rewrite (proj1 (playerMovement_calm _)), (proj1 (updateEntities_calm _)).
  reflexivity.
Qed.

Lemma decreaseTimer_timer (g : Game.t) :
  (0 < Game.timer g)%Z ->
  Game.timer (decreaseTimer g) = (Game.timer g - 1)%Z.
Proof.
  intro T. unfold decreaseTimer.
  assert (G : (Game.timer g >? 0)%Z = true) by (apply Z.gtb_lt; exact T).
  rewrite G. cbn [setTimeout]. case_if; [|reflexivity].
  rewrite determineWinner_timer. reflexivity.
Qed.

(** X15. The counter (lines 186-196 through every caller).  In every
    execution the counter is within [0, 59] after start-up, the timer
    display shows it, and it is positive while the match runs.  A step
    changes it only when the countdown callback fires on a running match,
    and then lowers it by one. *)
Theorem counter_in_every_execution (evs : list Event) (g : Game.t) :
  run evs boot = Some g ->
  (0 <= Game.timer g <= 59)%Z /\
  Dom.timerDisplay (Game.dom g) = Some (Game.timer g) /\
  (Game.gameRunning g = true -> (0 < Game.timer g)%Z) /\
  (forall ev g', step ev g = Some g' ->
     Game.timer g' = Game.timer g \/
     (ev = Fire /\ Game.gameRunning g = true /\
      Game.timer g' = (Game.timer g - 1)%Z)).
Proof.
  intro Hrun.
  pose proof (run_matchInv evs boot g boot_matchInv Hrun) as M.
  pose proof (run_queueInv evs boot g boot_matchInv boot_queueInv Hrun)
    as ((I1 & I2 & _) & I8).
  split; [exact I1|]. split; [exact I2|]. split; [intro R; apply I8, R|].
  intros ev g' S. destruct ev as [r|k|k|dt|]; cbn [step] in S.
  - apply some_eq in S. subst g'. left. apply animate_timer.
  - apply some_eq in S. subst g'. left. unfold keydown, attack.
    repeat (case_if; cbn); reflexivity.
  - apply some_eq in S. subst g'. left. apply (proj1 (keyup_calm k g)).
  - apply some_eq in S. subst g'. left. reflexivity.
  - destruct (earliest (Game.pending g)) as [t|] eqn:Et; [|discriminate].
    destruct (Timer.due t <=? Game.now g)%N; [|discriminate].
    apply some_eq in S. subst g'. apply earliest_In in Et.
    destruct (Timer.callback t) as [|this] eqn:C; cbn [runCallback].
    + destruct (Game.gameRunning g) eqn:R.
      * right. split; [reflexivity|]. split; [reflexivity|].
        apply (decreaseTimer_timer
                 (Game.set_pending (dropTimer (Timer.id t) (Game.pending g)) g)).
        apply I8. reflexivity.
      * destruct M as (_ & E & _). destruct (E R) as (_ & _ & NC).
        destruct (NC t Et C).
    + left. destruct this; reflexivity.
Qed.

Lemma counter_in_every_execution_witness :
  (0 <= Game.timer duelState <= 59)%Z /\
  Dom.timerDisplay (Game.dom duelState) = Some (Game.timer duelState).
Proof.
  assert (Hrun : run duel boot = Some duelState) by (vm_compute; reflexivity).
  destruct (counter_in_every_execution duel duelState Hrun) as (A & B & _).
  split; assumption.
Defined.

Lemma filter_same_id (p : Timer.t -> bool) (i : nat) (l : list Timer.t) :
  NoDup (map Timer.id l) ->
  (forall u, In u l -> p u = true -> Timer.id u = i) ->
  filter p l = [] \/ exists t, filter p l = [t].
Proof.
  induction l as [|a l IH]; cbn; intros Hnd F; [left; reflexivity|].
  inversion Hnd as [|x xs Hn Hd]; subst.
  assert (F' : forall u, In u l -> p u = true -> Timer.id u = i)
    by (intros u Hu; apply F; right; exact Hu).
  destruct (p a) eqn:Pa; [|apply IH; assumption].
  right. destruct (IH Hd F') as [->|(t & Et)]; [exists a; reflexivity|].
  exfalso. apply Hn.
  assert (Ht : In t (filter p l)) by (rewrite Et; left; reflexivity).
  apply filter_In in Ht. destruct Ht as (Ht & Pt).
  rewrite (F a (or_introl eq_refl) Pa), <- (F' t Ht Pt).
  apply in_map, Ht.
Qed.

(** X16. The countdown (lines 186-196, 172-173, through every caller).  In
    every execution, while the match runs exactly one countdown callback is
    in the timer queue, the one [timerId] names; after the end there is
    none, so the counter stays as it is. *)
Theorem countdown_is_scheduled_once (evs : list Event) (g : Game.t) :
  run evs boot = Some g ->
  (Game.gameRunning g = true ->
     exists t, filter isCountdown (Game.pending g) = [t] /\
               Game.timerId g = Some (Timer.id t)) /\
  (Game.gameRunning g = false -> filter isCountdown (Game.pending g) = []).
Proof.
  intro Hrun.
  pose proof (run_matchInv evs boot g boot_matchInv Hrun) as (_ & E & T).
  pose proof (run_queueInv evs boot g boot_matchInv boot_queueInv Hrun)
    as ((_ & _ & Hnd & _) & I8).
  assert (Cd : forall u, isCountdown u = true
                         <-> Timer.callback u = CbDecreaseTimer).
  { intro u. unfold isCountdown.
    destruct (Timer.callback u); split; congruence. }
  split; intro R.
  - destruct (I8 R) as (_ & c & Hc & Cc & Ec).
    assert (F : forall u, In u (Game.pending g) -> isCountdown u = true ->
                          Timer.id u = Timer.id c).
    { intros u Hu Pu. apply Cd in Pu. specialize (T u Hu Pu). congruence. }
    assert (In c (filter isCountdown (Game.pending g)))
      by (apply filter_In; split; [exact Hc|apply Cd, Cc]).
    destruct (filter_same_id isCountdown (Timer.id c) _ Hnd F)
      as [Z|(t & Et)].
    + rewrite Z in H. destruct H.
    + exists t. split; [exact Et|]. rewrite Et in H.
      destruct H as [->|[]]. exact Ec.
  - destruct (E R) as (_ & _ & NC).
    destruct (filter isCountdown (Game.pending g)) as [|u l] eqn:Fl;
      [reflexivity|].
    assert (Hu : In u (filter isCountdown (Game.pending g)))
      by (rewrite Fl; left; reflexivity).
    apply filter_In in Hu. destruct Hu as (Hu & Pu).
    destruct (NC u Hu). apply Cd, Pu.
Qed.

Lemma countdown_is_scheduled_once_witness :
  filter isCountdown (Game.pending knockedOut) = [].
Proof.
  refine (proj2 (countdown_is_scheduled_once knockout knockedOut _) _);
    vm_compute; reflexivity.
Defined.

(** X17. Attack flags and their resets (lines 114-120 with lines 172-173
    and every caller).  In every execution, a fighter whose [isAttacking]
    is set has a reset of its own in the timer queue, due at most 100 ms
    from now: neither another timer firing nor the end of the match takes
    it away, so the flag cannot stay set for good. *)
Theorem attack_flag_has_reset (evs : list Event) (g : Game.t) (this : Who) :
  run evs boot = Some g ->
  Sprite.isAttacking (Game.sprite this g) = true ->
  exists t, In t (Game.pending g) /\
            Timer.callback t = CbResetAttack this /\
            (Timer.due t <= Game.now g + 100)%N.
Proof.
  intros Hrun F.
  pose proof (run_queueInv evs boot g boot_matchInv boot_queueInv Hrun)
    as ((_ & _ & _ & _ & _ & I7) & _).
  apply I7, F.
Qed.

Lemma attack_flag_has_reset_witness :
  exists t, In t (Game.pending duelState) /\
            Timer.callback t = CbResetAttack Player /\
            (Timer.due t <= Game.now duelState + 100)%N.
Proof.
  apply (attack_flag_has_reset duel duelState Player);
    vm_compute; reflexivity.
Defined.

(** ** Reach and pursuit *)

(** X18. Reach of an attack (lines 86-94 with lines 163-170 and the
    constructor).  For two fighters with the sizes of the constructor that
    stand at whole-number positions, where the sums of the code are exact:
    the attack box of the first, once aligned, overlaps the body of the
    second exactly when the second stands at most 100 in front of the first
    and at most 50 behind it, and their vertical positions differ by at
    most 100.  The box covers the attacker's own body as well. *)
Theorem attack_reach (a b : Sprite.t) :
  asConstructed a -> asConstructed b ->
  wholeNumber (Vec.x (Sprite.position a)) ->
  wholeNumber (Vec.y (Sprite.position a)) ->
  wholeNumber (Vec.x (Sprite.position b)) ->
  wholeNumber (Vec.y (Sprite.position b)) ->
  let dx := Vec.x (Sprite.position b) - Vec.x (Sprite.position a) in
  let dy := Vec.y (Sprite.position b) - Vec.y (Sprite.position a) in
  rectangularCollision (Sprite.alignAttackBox a) b = true <->
  ((Sprite.direction a = 1%Z /\ -50 <= dx /\ dx <= 100) \/
   (Sprite.direction a = (-1)%Z /\ -100 <= dx /\ dx <= 50)) /\
  -100 <= dy /\ dy <= 100.
Proof.
  intros (A1 & A2 & A3 & A4 & A5 & A6) (B1 & B2 & _) _ _ _ _ dx dy.
  subst dx dy.
  unfold rectangularCollision, Sprite.alignAttackBox. cbn.
  rewrite A1, A3, A4, A5, B1, B2. cbn.
  rewrite !andb_true_iff, !js_ge_iff, !js_le_iff.
  destruct A6 as [D|D]; rewrite D; cbn; split.
  - intros (((H1 & H2) & H3) & H4). split; [left|]; repeat split; lra.
  - intros ([(_ & H1 & H2)|(X & _)] & H3 & H4); [|discriminate].
    repeat split; lra.
  - intros (((H1 & H2) & H3) & H4). split; [right|]; repeat split; lra.
  - intros ([(X & _)|(_ & H1 & H2)] & H3 & H4); [discriminate|].
    repeat split; lra.
Qed.

Lemma attack_reach_witness :
  rectangularCollision (Sprite.alignAttackBox touchingPlayer) enemy0 = true.
Proof.
  apply (attack_reach touchingPlayer enemy0).
  - unfold asConstructed. cbn. repeat split; auto.
  - unfold asConstructed. cbn. repeat split; auto.
  - exists 700%Z. split; [reflexivity | cbv; discriminate].
  - exists 0%Z. split; [reflexivity | cbv; discriminate].
  - exists 800%Z. split; [reflexivity | cbv; discriminate].
  - exists 0%Z. split; [reflexivity | cbv; discriminate].
  - cbn. split; [left|]; repeat split; cbv; discriminate.
Defined.



